(** * Aurion (Project Maya): the Settings and Help components

    A shallow embedding of the client-side code of the repository
    ([Settings], [Help]) and of the back-end behaviour that its guides
    document, together with the properties stated about them.

    JavaScript values are embedded as inductive types, plain objects as
    finite maps from property names to values, exceptions as an explicit
    completion monad, and React state as records threaded through the
    event handlers and effects. *)

From stdpp Require Import gmap strings list fin_maps pretty.

#[local] Set Warnings "-register-all".
#[local] Open Scope string_scope.

(** ** Completions: a computation returns normally or throws *)

Inductive exn := TypeError | SyntaxError.

Inductive completion (A : Type) :=
  | Normal (a : A)
  | Throw (e : exn).
Arguments Normal {A} a.
Arguments Throw {A} e.

#[global] Instance completion_ret : MRet completion := @Normal.
#[global] Instance completion_bind : MBind completion := λ A B f c,
  match c with
  | Normal a => f a
  | Throw e => Throw e
  end.

(** [try { body } catch (e) { handler }] *)
Definition try_catch {A} (body : completion A) (handler : exn → completion A)
  : completion A :=
  match body with
  | Normal a => Normal a
  | Throw e => handler e
  end.

(** The double quote character, for string literals that contain one. *)
Definition dquote : string := String (Ascii.ascii_of_nat 34) "".

(** The own property names of [Object.prototype]: every plain object
    inherits them, so [obj[name]] finds a built-in there when [obj] has no
    own property of that name. *)
Definition Object_prototype : list string :=
  [ "constructor"; "__defineGetter__"; "__defineSetter__"; "hasOwnProperty";
    "__lookupGetter__"; "__lookupSetter__"; "isPrototypeOf";
    "propertyIsEnumerable"; "toString"; "valueOf"; "__proto__";
    "toLocaleString" ].

(** ** The translation table and [t] (Settings, lines 19-140) *)

Module I18n.

(** The values that the evaluation of [t] can meet. *)
Inductive value :=
  | Undefined
  | Num (n : Z)
  | Str (s : string)
  | Obj (props : gmap string value)   (* an object literal: own properties *)
  | Builtin (name : string).          (* the built-in inherited under [name] *)

(** ToBoolean *)
Definition truthy (v : value) : bool :=
  match v with
  | Undefined => false
  | Num n => negb (n =? 0)%Z
  | Str s => negb (String.eqb s "")
  | Obj _ | Builtin _ => true
  end.

(** [a || b] *)
Definition or_else (a b : value) : value := if truthy a then a else b.

Definition translations_en : gmap string string :=
  list_to_map
    [ ("settings", "Settings");
      ("accountSettings", "Account Settings");
      ("profile", "Profile");
      ("uploadPhoto", "Upload photo");
      ("username", "Username");
      ("email", "Email");
      ("cancel", "Cancel");
      ("save", "Save");
      ("preferences", "Preferences");
      ("theme", "Theme");
      ("fontSize", "Font size");
      ("language", "Language");
      ("personalization", "Personalization");
      ("enableCustomization", "Enable customization");
      ("assistantPersonality", "Assistant personality");
      ("customInstructions", "Custom instructions");
      ("aboutYou", "About you");
      ("nickname", "Nickname");
      ("occupation", "Occupation");
      ("savePersonalization", "Save personalization");
      ("notifications", "Notifications");
      ("emailNotifications", "Email notifications");
      ("systemNotifications", "System notifications");
      ("soundAlerts", "Sound alerts");
      ("weeklySummary", "Weekly summary");
      ("privacy", "Privacy & Security");
      ("twoFA", "Two-factor authentication");
      ("activeSessions", "Active sessions");
      ("requestData", "Request data download");
      ("clearHistory", "Clear chat history");
      ("aboutSupport", "About & Support");
      ("contactSupport", "Contact support");
      ("terms", "Terms of Service");
      ("privacyPolicy", "Privacy Policy");
      ("reportBug", "Report a bug") ].

Definition translations_te : gmap string string :=
  list_to_map
    [ ("settings", "అమరికలు");
      ("accountSettings", "ఖాతా సెట్టింగ్‌లు");
      ("profile", "ప్రొఫైల్");
      ("uploadPhoto", "ఫొటో అప్లోడ్ చేయండి");
      ("username", "వాడుకరిపేరు");
      ("email", "ఇమెయిల్");
      ("cancel", "రద్దు చేయి");
      ("save", "సేవ్ చేయి");
      ("preferences", "అభిరుచులు");
      ("theme", "థీమ్");
      ("fontSize", "ఫాంట్ పరిమాణం");
      ("language", "భాష");
      ("personalization", "వ్యక్తిగతీకరణ");
      ("enableCustomization", "అనుకూలీకరణ పని చేయనివ్వు");
      ("assistantPersonality", "సహాయక వ్యక్తిత్వం");
      ("customInstructions", "అనుకూల సూచనలు");
      ("aboutYou", "మీ గురించి");
      ("nickname", "పేరు");
      ("occupation", "వ్యవసాయం/ఉద్యోగం");
      ("savePersonalization", "వ్యక్తిగతీకరణ సేవ్ చేయండి");
      ("notifications", "నోటిఫికేషన్లు");
      ("emailNotifications", "ఇమెయిల్ నోటిఫికేషన్లు");
      ("systemNotifications", "సిస్టమ్ నోటిఫికేషన్లు");
      ("soundAlerts", "ఆడియో అలర్ట్స్");
      ("weeklySummary", "వారపు సారాంశం");
      ("privacy", "గోప్యత & భద్రత");
      ("twoFA", "రెండు-స్టెప్ పరిశీలన");
      ("activeSessions", "చాలించే సెషన్లు");
      ("requestData", "డేటా డౌన్లోడ్ అభ్యర్థన");
      ("clearHistory", "చాట్ హిస్ట్రీ ని క్లియర్ చేయి");
      ("aboutSupport", "గురించి & మద్దతు");
      ("contactSupport", "మద్దతును సంప్రదించండి");
      ("terms", "సేవా షరతులు");
      ("privacyPolicy", "గోప్యత విధానము");
      ("reportBug", "బగ్ నివేదించండి") ].

Definition translations_hi : gmap string string :=
  list_to_map
    [ ("settings", "सेटिंग्स");
      ("accountSettings", "खाता सेटिंग्स");
      ("profile", "प्रोफ़ाइल");
      ("uploadPhoto", "फ़ोटो अपलोड करें");
      ("username", "उपयोगकर्ता नाम");
      ("email", "ईमेल");
      ("cancel", "रद्द करें");
      ("save", "सेव");
      ("preferences", "प्रेफ़रेंसेज़");
      ("theme", "थीम");
      ("fontSize", "फ़ॉन्ट आकार");
      ("language", "भाषा");
      ("personalization", "व्यक्तिगतकरण");
      ("enableCustomization", "अनुकूलन सक्षम करें");
      ("assistantPersonality", "सहायक व्यक्तित्व");
      ("customInstructions", "कस्टम निर्देश");
      ("aboutYou", "आपके बारे में");
      ("nickname", "उपनाम");
      ("occupation", "पेशा");
      ("savePersonalization", "व्यक्तिगतकरण सहेजें");
      ("notifications", "सूचनाएं");
      ("emailNotifications", "ईमेल सूचनाएं");
      ("systemNotifications", "सिस्टम सूचनाएं");
      ("soundAlerts", "ध्वनि अलर्ट");
      ("weeklySummary", "साप्ताहिक सारांश");
      ("privacy", "गोपनीयता और सुरक्षा");
      ("twoFA", "दो-चरण प्रमाणीकरण");
      ("activeSessions", "सक्रिय सत्र");
      ("requestData", "डेटा डाउनलोड का अनुरोध करें");
      ("clearHistory", "चैट इतिहास साफ़ करें");
      ("aboutSupport", "बारे में और सहायता");
      ("contactSupport", "संपर्क सहायता");
      ("terms", "सेवा की शर्तें");
      ("privacyPolicy", "गोपनीयता नीति");
      ("reportBug", "बग रिपोर्ट करें") ].

Definition translations : value :=
  Obj (list_to_map
    [ ("en", Obj (Str <$> translations_en));
      ("te", Obj (Str <$> translations_te));
      ("hi", Obj (Str <$> translations_hi)) ]).

Section Host.

(** What the host's built-in objects and primitives answer to a property
    read is left to the host. *)
Variable host_get : value → string → completion value.

(** [v[k]]: own property, then [Object.prototype]; reading a property of
    [undefined] throws a TypeError. *)
Definition Get (v : value) (k : string) : completion value :=
  match v with
  | Undefined => Throw TypeError
  | Obj props =>
      Normal match props !! k with
             | Some x => x
             | None =>
                 if bool_decide (k ∈ Object_prototype) then Builtin k
                 else Undefined
             end
  | _ => host_get v k
  end.

(** [translations.en[key] || key] *)
Definition english_or_key (key : string) : completion value :=
  en ← Get translations "en";
  e ← Get en key;
  mret (or_else e (Str key)).

(** [const t = (key, lang) => { try { return translations[lang || 'en'][key]
      || translations.en[key] || key; } catch (e) { return translations.en[key]
      || key; } }]; [lang] is [None] when [undefined]. *)
Definition t (key : string) (lang : option string) : completion value :=
  try_catch
    (table ← Get translations (match lang with
                               | Some l => if String.eqb l "" then "en" else l
                               | None => "en"
                               end);
     v ← Get table key;
     if truthy v then mret v else english_or_key key)
    (λ _, english_or_key key).

End Host.

(** The tables as finite maps, for stating what [t] is meant to return. *)
Definition tables : gmap string (gmap string string) :=
  list_to_map
    [ ("en", translations_en); ("te", translations_te); ("hi", translations_hi) ].

(** The lookup as the specification words it: the translation in the
    selected language when defined, otherwise the English one when defined,
    otherwise the key. *)
Definition t_spec (key : string) (lang : option string) : string :=
  match l ← lang; table ← tables !! l; table !! key with
  | Some s => s
  | None =>
      match translations_en !! key with
      | Some s => s
      | None => key
      end
  end.

(** A host whose built-ins have no properties at all. *)
Definition bare_host : value → string → completion value :=
  λ _ _, Normal Undefined.

(** A host that knows one property of one built-in: [Object.name], the
    name of the function found under [constructor]. *)
Definition named_host : value → string → completion value :=
  λ v k,
    match v with
    | Builtin b =>
        if String.eqb b "constructor" && String.eqb k "name"
        then Normal (Str "Object") else Normal Undefined
    | _ => Normal Undefined
    end.

End I18n.

(** ** The Settings component (lines 157-298) *)

Module Settings.

(** The values that [JSON.parse] produces and [JSON.stringify] accepts.
    Numbers are kept integral: the component never computes with one, they
    only pass through. [undefined] is not a JSON value; a property read
    that finds nothing is [None]. *)
Inductive json :=
  | JNull
  | JBool (b : bool)
  | JNum (n : Z)
  | JStr (s : string)
  | JArr (l : list json)
  | JObj (m : gmap string json).

(** ToBoolean *)
Definition truthy (v : json) : bool :=
  match v with
  | JNull => false
  | JBool b => b
  | JNum n => negb (n =? 0)%Z
  | JStr s => negb (String.eqb s "")
  | JArr _ | JObj _ => true
  end.

(** [v === 'literal'] *)
Definition is_str (v : json) (s : string) : bool :=
  match v with
  | JStr x => String.eqb x s
  | _ => false
  end.

(** [Object.is(old, new)] where [new] has just come out of [JSON.parse]:
    primitives compare by value, an object or array fresh from the parser
    is identical to nothing that existed before. *)
Definition Object_is (old new : json) : bool :=
  match old, new with
  | JNull, JNull => true
  | JBool a, JBool b => Bool.eqb a b
  | JNum a, JNum b => (a =? b)%Z
  | JStr a, JStr b => String.eqb a b
  | _, _ => false
  end.

(** *** Local storage

    A storage item is a string. The component tests it for emptiness,
    hands it to [JSON.parse] and overwrites it with the output of
    [JSON.stringify], nothing else, so a string is identified with what
    [JSON.parse] makes of it: [JSON.parse(JSON.stringify(v))] is [v] for
    the values of [json]. The storage quota is not modelled: [setItem]
    always succeeds. *)
Inductive DOMString :=
  | NoText                      (* the empty string *)
  | JSONText (v : json)         (* a JSON text, the one of [v] *)
  | BrokenText (raw : string).  (* a non-empty string that is no JSON text *)

Definition JSON_parse (s : DOMString) : completion json :=
  match s with
  | JSONText v => Normal v
  | NoText | BrokenText _ => Throw SyntaxError
  end.

Definition JSON_stringify (v : json) : DOMString := JSONText v.

Abbreviation Storage := (gmap string DOMString).

Definition getItem (ls : Storage) (k : string) : option DOMString := ls !! k.
Definition setItem (ls : Storage) (k : string) (s : DOMString) : Storage :=
  <[k := s]> ls.

(** [localStorage.getItem('app_settings') || '{}']: [null] and the empty
    string are falsy. *)
Definition item_or_empty_object (ls : Storage) : DOMString :=
  match getItem ls "app_settings" with
  | None | Some NoText => JSONText (JObj ∅)
  | Some s => s
  end.

(** The single characters of a string, as strings. *)
Fixpoint chars (s : string) : list string :=
  match s with
  | EmptyString => []
  | String c s' => String c "" :: chars s'
  end.

(** The object with the elements of a list under the keys "0", "1", ... *)
Definition indexed (l : list json) : gmap string json :=
  list_to_map (imap (λ i v, (pretty i, v)) l).

(** [{ ...v }]: the own enumerable properties of [v]; those of a string are
    its characters (here one per byte). *)
Definition spread (v : json) : gmap string json :=
  match v with
  | JObj m => m
  | JArr l => indexed l
  | JStr s => indexed (JStr <$> chars s)
  | JNull | JBool _ | JNum _ => ∅
  end.

(** [saved.name]: [Throw] on [null], [None] for [undefined]. None of the
    names read by the component is a property of an array, a string, a
    number or a boolean, nor of [Object.prototype]. *)
Definition Get (v : json) (name : string) : completion (option json) :=
  match v with
  | JNull => Throw TypeError
  | JObj m => Normal (m !! name)
  | _ => Normal None
  end.

(** *** React state *)

Record State := mkState {
  profile : json;
  avatarPreview : json;
  theme : json;
  fontSize : json;
  language : json;
  customizationEnabled : json;
  personality : json;
  customInstructions : json;
  about : json;
  notifications : json;
  twoFA : bool;
  apiKeys : json;
}.

Definition obj (l : list (string * json)) : json := JObj (list_to_map l).

(** The arguments of the [useState] calls. *)
Definition initial : State := {|
  profile := obj [("username", JStr "You"); ("email", JStr "you@example.com")];
  avatarPreview := JNull;
  theme := JStr "system";
  fontSize := JStr "medium";
  language := JStr "en";
  customizationEnabled := JBool true;
  personality := JStr "default";
  customInstructions := JStr "";
  about := obj [("nickname", JStr ""); ("occupation", JStr "")];
  notifications := obj [("email", JBool true); ("system", JBool true);
                        ("sound", JBool false); ("weekly", JBool false)];
  twoFA := false;
  apiKeys := JArr [obj [("id", JStr "k_123"); ("name", JStr "Default key");
                        ("created", JStr "2025-02-01")]];
|}.

(** The state setters called by the load effect. *)
Inductive action :=
  | setTheme (v : json)
  | setFontSize (v : json)
  | setLanguage (v : json)
  | setCustomizationEnabled (v : json)
  | setPersonality (v : json)
  | setCustomInstructions (v : json)
  | setAbout (v : json).

Definition apply (s : State) (a : action) : State :=
  match a with
  | setTheme v => let 'mkState p av _ fs l ce pe ci ab n tf k := s in
                  mkState p av v fs l ce pe ci ab n tf k
  | setFontSize v => let 'mkState p av th _ l ce pe ci ab n tf k := s in
                     mkState p av th v l ce pe ci ab n tf k
  | setLanguage v => let 'mkState p av th fs _ ce pe ci ab n tf k := s in
                     mkState p av th fs v ce pe ci ab n tf k
  | setCustomizationEnabled v =>
      let 'mkState p av th fs l _ pe ci ab n tf k := s in
      mkState p av th fs l v pe ci ab n tf k
  | setPersonality v => let 'mkState p av th fs l ce _ ci ab n tf k := s in
                        mkState p av th fs l ce v ci ab n tf k
  | setCustomInstructions v =>
      let 'mkState p av th fs l ce pe _ ab n tf k := s in
      mkState p av th fs l ce pe v ab n tf k
  | setAbout v => let 'mkState p av th fs l ce pe ci _ n tf k := s in
                  mkState p av th fs l ce pe ci v n tf k
  end.

(** Does the setter call change the cell ([Object.is] on old and new)? *)
Definition changes (s : State) (a : action) : bool :=
  negb match a with
       | setTheme v => Object_is (theme s) v
       | setFontSize v => Object_is (fontSize s) v
       | setLanguage v => Object_is (language s) v
       | setCustomizationEnabled v => Object_is (customizationEnabled s) v
       | setPersonality v => Object_is (personality s) v
       | setCustomInstructions v => Object_is (customInstructions s) v
       | setAbout v => Object_is (about s) v
       end.

(** *** [saveChanges] (lines 202-234)

    [s] holds the cells as the closure captured them when the handler was
    invoked, [ls] is the local storage when the awaited timer has fired.
    The [try] block is embedded in full; the cells [saving], [savedMsg] and
    [toast] set around it never reach the storage. *)
Definition saveChanges (area : string) (s : State) (ls : Storage) : Storage :=
  let attempt : completion Storage :=
    stored ← JSON_parse (item_or_empty_object ls);
    let toSave := spread stored in
    let toSave :=
      if String.eqb area "preferences" then
        <["language" := language s]>
          (<["fontSize" := fontSize s]> (<["theme" := theme s]> toSave))
      else if String.eqb area "personalization" then
        <["about" := about s]>
          (<["customInstructions" := customInstructions s]>
             (<["personality" := personality s]>
                (<["customizationEnabled" := customizationEnabled s]> toSave)))
      else if String.eqb area "profile" then
        <["avatarPreview" := avatarPreview s]>
          (<["profile" := profile s]> toSave)
      else if String.eqb area "notifications" then
        <["notifications" := notifications s]> toSave
      else if String.eqb area "integrations" then
        <["apiKeys" := apiKeys s]> toSave
      else
        (* fallback save all *)
        <["apiKeys" := apiKeys s]>
          (<["notifications" := notifications s]>
             (<["profile" := profile s]>
                (<["about" := about s]>
                   (<["customInstructions" := customInstructions s]>
                      (<["personality" := personality s]>
                         (<["customizationEnabled" := customizationEnabled s]>
                            (<["language" := language s]>
                               (<["fontSize" := fontSize s]>
                                  (<["theme" := theme s]> toSave)))))))))
    in
    mret (setItem ls "app_settings" (JSON_stringify (JObj toSave)))
  in
  match attempt with
  | Normal ls' => ls'
  | Throw _ => ls   (* catch (e) { // ignore } *)
  end.

(** *** The effects (lines 237-284) *)

(** The load effect: the setter calls it makes, in order. A throw inside
    the [try] block ends it; the only reads that can throw come before the
    first setter call. *)
Definition load_effect (ls : Storage) : list action :=
  let attempt : completion (list action) :=
    saved ← JSON_parse (item_or_empty_object ls);
    th ← Get saved "theme";
    fs ← Get saved "fontSize";
    la ← Get saved "language";
    ce ← Get saved "customizationEnabled";
    pe ← Get saved "personality";
    ci ← Get saved "customInstructions";
    ab ← Get saved "about";
    let when_truthy (x : option json) (set : json → action) :=
      match x with
      | Some v => if truthy v then [set v] else []
      | None => []
      end in
    mret (when_truthy th setTheme
          ++ when_truthy fs setFontSize
          ++ when_truthy la setLanguage   (* [saved.language || 'en'] is [saved.language] here *)
          ++ match ce with Some v => [setCustomizationEnabled v] | None => [] end
          ++ when_truthy pe setPersonality
          ++ when_truthy ci setCustomInstructions
          ++ when_truthy ab setAbout)%list
  in
  match attempt with
  | Normal l => l
  | Throw _ => []   (* catch (e) { // ignore } *)
  end.

(** What the second effect sets on [document.documentElement]. *)
Record Document := mkDocument {
  app_font_size : string;
  theme_dark : bool;
  lang : json;
}.

(** The persist effect; [prefers_dark] is the answer of
    [window.matchMedia('(prefers-color-scheme: dark)')]. [JSON.parse] is
    not guarded here: a throw leaves the effect. *)
Definition persist_effect (prefers_dark : bool) (s : State)
    (ls : Storage) : completion (Document * Storage) :=
  let size := if is_str (fontSize s) "small" then "13px"
              else if is_str (fontSize s) "large" then "16px" else "14px" in
  let dark := if is_str (theme s) "dark" then true
              else if is_str (theme s) "light" then false
              else prefers_dark in
  let doc := mkDocument size dark
               (if truthy (language s) then language s else JStr "en") in
  toSave ← JSON_parse (item_or_empty_object ls);
  let merged :=
    <["about" := about s]>
      (<["customInstructions" := customInstructions s]>
         (<["personality" := personality s]>
            (<["customizationEnabled" := customizationEnabled s]>
               (<["language" := language s]>
                  (<["fontSize" := fontSize s]>
                     (<["theme" := theme s]> (spread toSave))))))) in
  mret (doc, setItem ls "app_settings" (JSON_stringify (JObj merged))).

(** Mounting the component: the first render shows the initial state; both
    effects then run in the order they are declared, the second one with
    the cells of that first render. When a setter call of the load effect
    changed a cell, the component renders again and the persist effect,
    whose dependencies are exactly those cells, runs a second time. *)
Definition mount (prefers_dark : bool) (ls : Storage)
  : completion (State * Document * Storage) :=
  let updates := load_effect ls in
  '(doc, ls1) ← persist_effect prefers_dark initial ls;
  let s := foldl apply initial updates in
  if existsb (changes initial) updates then
    '(doc', ls2) ← persist_effect prefers_dark s ls1;
    mret (s, doc', ls2)
  else mret (s, doc, ls1).

(** *** The settings areas

    The areas whose Save button the page offers, and for each area the
    cells that belong to it with the property names they are saved under;
    any other argument stands for all of them. *)
Definition areas : list string :=
  [ "profile"; "preferences"; "personalization"; "notifications";
    "integrations" ].

Definition area_fields (area : string) (s : State) : list (string * json) :=
  if String.eqb area "preferences" then
    [ ("theme", theme s); ("fontSize", fontSize s); ("language", language s) ]
  else if String.eqb area "personalization" then
    [ ("customizationEnabled", customizationEnabled s);
      ("personality", personality s);
      ("customInstructions", customInstructions s); ("about", about s) ]
  else if String.eqb area "profile" then
    [ ("profile", profile s); ("avatarPreview", avatarPreview s) ]
  else if String.eqb area "notifications" then
    [ ("notifications", notifications s) ]
  else if String.eqb area "integrations" then
    [ ("apiKeys", apiKeys s) ]
  else
    [ ("theme", theme s); ("fontSize", fontSize s); ("language", language s);
      ("customizationEnabled", customizationEnabled s);
      ("personality", personality s);
      ("customInstructions", customInstructions s); ("about", about s);
      ("profile", profile s); ("notifications", notifications s);
      ("apiKeys", apiKeys s) ].

(** The cells that the persist effect writes, with their property names. *)
Definition preference_fields (s : State) : list (string * json) :=
  [ ("theme", theme s); ("fontSize", fontSize s); ("language", language s);
    ("customizationEnabled", customizationEnabled s);
    ("personality", personality s);
    ("customInstructions", customInstructions s); ("about", about s) ].

(** [if (saved.x) setX(saved.x)] on a cell whose initial value is [d]: the
    stored value when there is one and it is truthy, [d] otherwise. *)
Definition pick (x : option json) (d : json) : json :=
  match x with
  | Some v => if truthy v then v else d
  | None => d
  end.

(** A cell value that [if (saved.x) setX(saved.x)] brings back: a truthy
    one, or the one the cell starts with. *)
Definition comes_back (v d : json) : Prop := truthy v = true ∨ v = d.

(** The states whose guarded cells all come back. *)
Definition restorable (s : State) : Prop :=
  comes_back (theme s) (theme initial)
  ∧ comes_back (fontSize s) (fontSize initial)
  ∧ comes_back (language s) (language initial)
  ∧ comes_back (personality s) (personality initial)
  ∧ comes_back (customInstructions s) (customInstructions initial)
  ∧ comes_back (about s) (about initial).

(** [{ ...m, k1: v1, ..., kn: vn }] *)
Definition assign (m : gmap string json) (fields : list (string * json))
  : gmap string json :=
  foldl (λ m kv, <[kv.1 := kv.2]> m) m fields.

(** *** API keys (lines 190-191, 293-298)

    The cell [apiKeys] is written by its two updaters only, never by the
    load effect, so it always holds an array of records of three strings. *)
Record ApiKey := mkApiKey {
  id : string;
  name : string;
  created : string;
}.

Definition ApiKey_json (k : ApiKey) : json :=
  obj [("id", JStr (id k)); ("name", JStr (name k));
       ("created", JStr (created k))].

Definition apiKeys_initial : list ApiKey :=
  [ mkApiKey "k_123" "Default key" "2025-02-01" ].

(** [generateApiKey]: [random] stands for
    [Math.random().toString(36).slice(2, 10)], [today] for
    [new Date().toISOString().slice(0, 10)]. *)
Definition generateApiKey (random today : string) (s : list ApiKey)
  : list ApiKey :=
  mkApiKey ("k_" +:+ random) "New key" today :: s.

(** [revokeApiKey]: [s.filter((k) => k.id !== id)] *)
Definition revokeApiKey (revoked : string) (s : list ApiKey) : list ApiKey :=
  filter (λ k, id k ≠ revoked) s.

End Settings.

(** ** The Help component (Help.js) *)

Module Help.

Record section := mkSection {
  key : string;
  title : string;
  summary : string;
  items : list string;
}.

Definition sections : list section :=
  [ mkSection "getting-started" "Getting Started"
      "Overview of how to use the platform and begin conversations with MAYA."
      [ "Create a new chat using the " +:+ dquote +:+ "New Chat" +:+ dquote
          +:+ " button";
        "Type your question or use voice input";
        "Attach files and images to provide context";
        "Use the sidebar to access saved conversations" ];
    mkSection "account-profile" "Account & Profile"
      "Login, registration, password recovery, and profile management."
      [ "How to register and verify your account";
        "Reset your password from the login screen";
        "Update profile details and avatar";
        "Manage connected apps and API keys" ];
    mkSection "features-dashboard" "Features & Dashboard"
      "Guides on different modules, tools, and dashboard workflows."
      [ "Understanding the Dashboard layout and widgets";
        "Using Tasks, Memory, and Suggestions features";
        "Exporting or saving conversation transcripts";
        "Keyboard shortcuts and productivity tips" ];
    mkSection "troubleshooting" "Troubleshooting"
      "Common errors and step-by-step fixes for connectivity or UI issues."
      [ "If messages fail to send, check network and retry";
        "Clear local cache or refresh to recover from UI glitches";
        "Check server status or contact support for prolonged outages" ];
    mkSection "tips" "Tips & Best Practices"
      "Short tips for better results and privacy-aware usage."
      [ "Be specific with prompts to get better responses";
        "Use the edit feature to refine inputs";
        "Manage memory settings to control what is retained" ] ].

(** [Array.from(new Set(t))]: the first occurrence of each element, in
    insertion order; [seen] is the set built so far. *)
Fixpoint Set_from (seen : list string) (l : list string) : list string :=
  match l with
  | [] => []
  | x :: l' =>
      if bool_decide (x ∈ seen) then Set_from seen l'
      else x :: Set_from (x :: seen) l'
  end.

(** [topics] (lines 106-113): each title followed by its items. *)
Definition topics : list string :=
  Set_from [] (flat_map (λ s, title s :: items s) sections).

(** [String.prototype.startsWith] and [String.prototype.includes] *)
Fixpoint startsWith (s q : string) : bool :=
  match q, s with
  | EmptyString, _ => true
  | String c q', String d s' => Ascii.eqb c d && startsWith s' q'
  | String _ _, EmptyString => false
  end.

Fixpoint includes (s q : string) : bool :=
  startsWith s q
  || match s with
     | EmptyString => false
     | String _ s' => includes s' q
     end.

Section Search.

(** [String.prototype.toLowerCase] follows the Unicode case mapping of the
    host; nothing below depends on which mapping it is. *)
Variable toLowerCase : string → string.

(** [filtered] (lines 115-119) *)
Definition filtered (query : string) : list string :=
  if String.eqb query "" then []
  else
    let q := toLowerCase query in
    take 6 (filter (λ t, Is_true (includes (toLowerCase t) q)) topics).

End Search.

(** The ASCII part of the case mapping, for running examples. *)
Definition ascii_lower (c : Ascii.ascii) : Ascii.ascii :=
  let n := Ascii.nat_of_ascii c in
  if (65 <=? n)%nat && (n <=? 90)%nat then Ascii.ascii_of_nat (n + 32) else c.

Fixpoint ascii_toLowerCase (s : string) : string :=
  match s with
  | EmptyString => EmptyString
  | String c s' => String (ascii_lower c) (ascii_toLowerCase s')
  end.

(** *** The contact form (lines 87-98) *)

Record contact := mkContact {
  name : string;
  email : string;
  message : string;
}.

(** The one closure handed to [setTimeout]: [() => setSubmitted(false)]. *)
Inductive callback := reset_submitted.

(** What a handler can reach: the [submitted] and [contact] cells, the
    console, the requests sent over the network, the pending timers with
    the time (in milliseconds) at which each is due, and the clock. *)
Record world := mkWorld {
  contact_cell : contact;
  submitted : bool;
  default_prevented : bool;
  console : list (string * contact);
  network : list string;
  timers : list (N * callback);
  now : N;
}.

(** [setTimeout(cb, delay)] *)
Definition setTimeout (cb : callback) (delay : N) (w : world) : world :=
  mkWorld (contact_cell w) (submitted w) (default_prevented w) (console w)
    (network w) (timers w ++ [((now w + delay)%N, cb)]) (now w).

Definition setSubmitted (b : bool) (w : world) : world :=
  mkWorld (contact_cell w) b (default_prevented w) (console w) (network w)
    (timers w) (now w).

Definition console_log (label : string) (c : contact) (w : world) : world :=
  mkWorld (contact_cell w) (submitted w) (default_prevented w)
    (console w ++ [(label, c)]) (network w) (timers w) (now w).

Definition preventDefault (w : world) : world :=
  mkWorld (contact_cell w) (submitted w) true (console w) (network w)
    (timers w) (now w).

(** [handleContactSubmit] (lines 92-98) *)
Definition handleContactSubmit (w : world) : world :=
  let w := preventDefault w in
  let w := console_log "Contact submission" (contact_cell w) w in
  let w := setSubmitted true w in
  setTimeout reset_submitted 4000 w.

Definition run (cb : callback) (w : world) : world :=
  match cb with
  | reset_submitted => setSubmitted false w
  end.

(** The event loop with nothing else to do for [d] milliseconds: the clock
    moves on and the timers that have come due run, in the order in which
    they were set (all have the same delay, so this is the order in which
    they come due); no callback sets a timer. *)
Definition elapse (d : N) (w : world) : world :=
  let t := (now w + d)%N in
  let due := filter (λ tm, (tm.1 ≤ t)%N) (timers w) in
  let rest := filter (λ tm, ¬ (tm.1 ≤ t)%N) (timers w) in
  foldl (λ w tm, run tm.2 w)
    (mkWorld (contact_cell w) (submitted w) (default_prevented w) (console w)
       (network w) rest t)
    due.

(** *** The collapsible panels and the FAQ (lines 79-85)

    [openPanels] and [openFaq] are objects whose own properties are all
    booleans: the only writer stores [!s[key]]. *)
Definition openPanels_initial : gmap string bool := {[ "getting-started" := true ]}.
Definition openFaq_initial : gmap string bool := ∅.

(** ToBoolean of [s[key]], as the render tree tests it: the own property,
    else the built-in that [Object.prototype] has under that name, else
    [undefined]. *)
Definition is_open (s : gmap string bool) (key : string) : bool :=
  match s !! key with
  | Some b => b
  | None => bool_decide (key ∈ Object_prototype)
  end.

(** [(s) => ({ ...s, [key]: !s[key] })] *)
Definition togglePanel (key : string) (s : gmap string bool)
  : gmap string bool :=
  <[key := negb (is_open s key)]> s.

(** The decimal numerals: the strings made of digits only. *)
Definition is_digit (c : Ascii.ascii) : bool :=
  let n := Ascii.nat_of_ascii c in (48 <=? n)%nat && (n <=? 57)%nat.

Fixpoint digits (s : string) : bool :=
  match s with
  | EmptyString => true
  | String c s' => is_digit c && digits s'
  end.

(** [(s) => ({ ...s, [i]: !s[i] })]; the index becomes the property name. *)
Definition toggleFaq (i : nat) (s : gmap string bool) : gmap string bool :=
  <[pretty i := negb (is_open s (pretty i))]> s.

(** *** The search box (lines 8-9, 121-138, 154-175) *)

Record search_box := mkSearchBox {
  query : string;
  showSuggestions : bool;
}.

Definition search_box_initial : search_box := mkSearchBox "" false.

(** [onFocus] and [onChange] of the input. *)
Definition onFocus (st : search_box) : search_box :=
  mkSearchBox (query st) true.

Definition onChange (value : string) (st : search_box) : search_box :=
  mkSearchBox value true.

(** [onDocClick]: [inside] tells whether the box contains the click target. *)
Definition onDocClick (inside : bool) (st : search_box) : search_box :=
  if inside then st else mkSearchBox (query st) false.

(** The class [[a-z0-9]] of the regular expression. *)
Definition is_slug_char (c : Ascii.ascii) : bool :=
  let n := Ascii.nat_of_ascii c in
  ((97 <=? n)%nat && (n <=? 122)%nat) || ((48 <=? n)%nat && (n <=? 57)%nat).

(** The character ['-']. *)
Definition dash : Ascii.ascii := Ascii.ascii_of_nat 45.

(** [.replace(/[^a-z0-9]+/g, '-')]: every maximal run of characters outside
    the class becomes one dash; [in_run] tells that the dash of the current
    run is already out. *)
Fixpoint replace_runs (in_run : bool) (s : string) : string :=
  match s with
  | EmptyString => EmptyString
  | String c s' =>
      if is_slug_char c then String c (replace_runs false s')
      else if in_run then replace_runs true s'
      else String dash (replace_runs true s')
  end.

(** The rows of the suggestion list. *)
Inductive row :=
  | no_suggestion
  | suggestion (text : string).

Section Suggestions.

Variable toLowerCase : string → string.

(** [text.toLowerCase().replace(/[^a-z0-9]+/g, '-')] *)
Definition slug (text : string) : string :=
  replace_runs false (toLowerCase text).

(** [handleSelectSuggestion] (lines 131-138): the new cells, and the id of
    the element scrolled into view if [document.getElementById] finds one;
    [has_element] tells which ids the document has. *)
Definition handleSelectSuggestion (has_element : string → bool)
    (text : string) (st : search_box) : search_box * option string :=
  let el := "help-" +:+ slug text in
  (mkSearchBox text false, if has_element el then Some el else None).

(** The list under the input (lines 163-174): [None] when nothing is
    rendered. *)
Definition dropdown (st : search_box) : option (list row) :=
  let f := filtered toLowerCase (query st) in
  if showSuggestions st
     && ((0 <? List.length f)%nat || negb (String.eqb (query st) ""))
  then Some ((if (List.length f =? 0)%nat then [no_suggestion] else [])
             ++ (suggestion <$> f))%list
  else None.

End Suggestions.

End Help.

(** ** The back end, as the deployment and search guides document it *)

Module Backend.

(** *** The mail configuration and [/test-email] *)

Record environment := mkEnvironment {
  MAIL_USERNAME : option string;
  MAIL_PASSWORD : option string;
  MAIL_FROM : option string;
}.

Definition is_set (v : option string) : bool :=
  match v with
  | Some s => negb (String.eqb s "")
  | None => false
  end.

(** Modelled from the spec: the switch of the email feature; the back-end
    module that defines it is absent from the sources. The deployment guide
    lists the three variables as required secrets and says that "if not
    set, email endpoints will be disabled". *)
Definition mail_enabled (e : environment) : bool :=
  is_set (MAIL_USERNAME e) && is_set (MAIL_PASSWORD e) && is_set (MAIL_FROM e).

Inductive cause := mail_not_configured | delivery.

Record response := mkResponse {
  status : nat;
  why : cause;
}.

(** Modelled from the spec: the handler of [/test-email]; the back-end
    route that defines it is absent from the sources. "Without them,
    /test-email will return 503"; with them the answer is the one of the
    delivery attempt, whose status [sent] is whatever the mail server
    caused. *)
Definition test_email (e : environment) (sent : nat) : response :=
  if mail_enabled e then mkResponse sent delivery
  else mkResponse 503 mail_not_configured.

(** *** Real-time web search *)

Inductive provider := SerpAPI | GoogleCustomSearch.

(** A Redis string value with its expiry, in seconds on the server clock. *)
Record entry := mkEntry {
  blob : string;
  expires_at : N;
}.

Abbreviation redis := (gmap string entry).

(** Redis [SETEX key ttl value] at time [now]. *)
Definition setex (key : string) (ttl : N) (v : string) (now : N) (r : redis)
  : redis :=
  <[key := mkEntry v (now + ttl)]> r.

(** Redis [GET key] at time [now]: a key is gone once its expiry is reached. *)
Definition get (key : string) (now : N) (r : redis) : option string :=
  match r !! key with
  | Some e => if (now <? expires_at e)%N then Some (blob e) else None
  | None => None
  end.

(** "Cache TTL: 1 hour (3600 seconds)" *)
Definition CACHE_TTL : N := 3600.

Section Search.

(** [hashlib.sha256(b).hexdigest()] and [str.lower] are library functions. *)
Variable sha256_hexdigest : string → string.
Variable lower : string → string.

(** One attempt with each provider: the JSON blob of results, or [None]
    when the attempt failed or the provider is not available. *)
Variable serpapi : string → option string.
Variable google_custom_search : string → option string.

(** The key as the search guide computes it:
    [f"search:query:{hashlib.sha256(query.lower().encode()).hexdigest()[:16]}"] *)
Definition cache_key (query : string) : string :=
  "search:query:" +:+ String.substring 0 16 (sha256_hexdigest (lower query)).

(** Modelled from the spec: the provider failover inside [smart_search];
    the module [app.services.realtime_search] is absent from the sources.
    The search guide: the search uses "SerpAPI first, falls back to Google
    Custom Search if needed". The result comes with the providers tried,
    in order. *)
Definition web_search (query : string) : option string * list provider :=
  match serpapi query with
  | Some found => (Some found, [SerpAPI])
  | None => (google_custom_search query, [SerpAPI; GoogleCustomSearch])
  end.

(** Modelled from the spec: [smart_search] of [app.services.realtime_search];
    the module is absent from the sources. The search guide: results are
    cached in Redis with a 1-hour TTL, under [cache_key]. A cached result
    is served as it is; otherwise the providers are asked and what they
    found is stored. The result comes with the new cache and the providers
    tried, in order. *)
Definition smart_search (query : string) (now : N) (r : redis)
  : option string * redis * list provider :=
  let key := cache_key query in
  match get key now r with
  | Some cached => (Some cached, r, [])
  | None =>
      match web_search query with
      | (Some found, tried) =>
          (Some found, setex key CACHE_TTL found now r, tried)
      | (None, tried) => (None, r, tried)
      end
  end.

End Search.

End Backend.

(** * Properties *)

(** ** The translation lookup *)

Lemma bind_Normal {A B} (a : A) (f : A → completion B) :
  Normal a ≫= f = f a.
Proof. reflexivity. Qed.

Lemma bind_Throw {A B} (e : exn) (f : A → completion B) :
  Throw e ≫= f = Throw e.
Proof. reflexivity. Qed.

Section I18nFacts.
Import I18n.

Variable host_get : value → string → completion value.

Lemma translations_unfold :
  translations
  = Obj (<["en" := Obj (Str <$> translations_en)]>
           (<["te" := Obj (Str <$> translations_te)]>
              (<["hi" := Obj (Str <$> translations_hi)]> ∅))).
Proof. reflexivity. Qed.

Lemma tables_unfold :
  tables = <["en" := translations_en]>
             (<["te" := translations_te]> (<["hi" := translations_hi]> ∅)).
Proof. reflexivity. Qed.

(** Reading a language off [translations]: its table, a built-in under an
    inherited name, [undefined] otherwise. *)
Lemma Get_translations (l : string) :
  Get host_get translations l
  = Normal match tables !! l with
           | Some table => Obj (Str <$> table)
           | None => if bool_decide (l ∈ Object_prototype) then Builtin l
                     else Undefined
           end.
Proof.
  rewrite translations_unfold, tables_unfold. unfold Get. f_equal.
  rewrite !lookup_insert.
  repeat case_decide; reflexivity.
Qed.

Lemma Get_table (table : gmap string string) (k : string) :
  Get host_get (Obj (Str <$> table)) k
  = Normal match table !! k with
           | Some s => Str s
           | None => if bool_decide (k ∈ Object_prototype) then Builtin k
                     else Undefined
           end.
Proof.
  unfold Get. rewrite lookup_fmap. destruct (table !! k); reflexivity.
Qed.

(** No translation is the empty string, so [||] never skips one. *)
Lemma table_truthy (entries : list (string * string)) (k s : string) :
  forallb (λ e, truthy (Str e.2)) entries = true →
  (list_to_map entries : gmap string string) !! k = Some s →
  truthy (Str s) = true.
Proof.
  intros Hall Hk. apply elem_of_list_to_map_2 in Hk.
  rewrite forallb_forall in Hall.
  apply (Hall (k, s)). by apply list_elem_of_In.
Qed.

Lemma translations_truthy (l : string) (table : gmap string string)
    (k s : string) :
  tables !! l = Some table → table !! k = Some s → truthy (Str s) = true.
Proof.
  rewrite tables_unfold, !lookup_insert.
  repeat case_decide; intros [= <-]; apply table_truthy; reflexivity.
Qed.

Lemma en_table : tables !! "en" = Some translations_en.
Proof. reflexivity. Qed.

Lemma english_or_key_spec (k : string) :
  english_or_key host_get k
  = Normal match translations_en !! k with
           | Some s => Str s
           | None => if bool_decide (k ∈ Object_prototype) then Builtin k
                     else Str k
           end.
Proof.
  unfold english_or_key.
  rewrite Get_translations, en_table, bind_Normal, Get_table, bind_Normal.
  unfold mret, completion_ret.
  destruct (translations_en !! k) as [s|] eqn:Hk.
  - unfold or_else. rewrite (translations_truthy _ _ _ _ en_table Hk).
    reflexivity.
  - case_bool_decide; reflexivity.
Qed.

Lemma english_or_key_total (k : string) :
  ∃ v, english_or_key host_get k = Normal v.
Proof. rewrite english_or_key_spec. eauto. Qed.

(** The property name that [t] reads off [translations]. *)
Lemma t_unfold (k : string) (lang : option string) :
  t host_get k lang
  = try_catch
      (table ← Get host_get translations
                 (match lang with
                  | Some l => if String.eqb l "" then "en" else l
                  | None => "en"
                  end);
       v ← Get host_get table k;
       if truthy v then Normal v else english_or_key host_get k)
      (λ _, english_or_key host_get k).
Proof. reflexivity. Qed.

Lemma t_total (k : string) (lang : option string) :
  ∃ v, t host_get k lang = Normal v.
Proof.
  rewrite t_unfold.
  destruct (Get host_get translations _) as [table|e];
    [rewrite bind_Normal|rewrite bind_Throw; apply english_or_key_total].
  destruct (Get host_get table k) as [v|e];
    [rewrite bind_Normal|rewrite bind_Throw; apply english_or_key_total].
  destruct (truthy v).
  - eexists. reflexivity.
  - destruct (english_or_key_total k) as [w Hw]. rewrite Hw.
    eexists. reflexivity.
Qed.

(** On names that [Object.prototype] does not define, [t] is the lookup
    with its two fallbacks. *)
Lemma t_own (k : string) (lang : option string) :
  k ∉ Object_prototype →
  (∀ l, lang = Some l → l ∉ Object_prototype) →
  t host_get k lang = Normal (Str (t_spec k lang)).
Proof.
  intros Hk Hlang. rewrite t_unfold, Get_translations, bind_Normal.
  assert (Hen : english_or_key host_get k
                = Normal (Str match translations_en !! k with
                              | Some s => s
                              | None => k
                              end)).
  { rewrite english_or_key_spec. destruct (translations_en !! k); [done|].
    by rewrite bool_decide_eq_false_2. }
  unfold t_spec.
  destruct lang as [l|]; cbn [mbind option_bind].
  - destruct (String.eqb_spec l "") as [->|Hne].
    + rewrite en_table, Get_table, bind_Normal.
      change ((tables : gmap string (gmap string string)) !! EmptyString)
        with (@None (gmap string string)). cbn [mbind option_bind].
      destruct (translations_en !! k) as [s|] eqn:Hs.
      * rewrite (translations_truthy _ _ _ _ en_table Hs). reflexivity.
      * rewrite bool_decide_eq_false_2 by done. cbn [truthy try_catch].
        rewrite english_or_key_spec, Hs, bool_decide_eq_false_2 by done.
        reflexivity.
    + destruct (tables !! l) as [table|] eqn:Hl; cbn [mbind option_bind].
      * rewrite Get_table, bind_Normal.
        destruct (table !! k) as [s|] eqn:Hs.
        -- rewrite (translations_truthy _ _ _ _ Hl Hs). reflexivity.
        -- rewrite bool_decide_eq_false_2 by done. cbn [truthy try_catch].
           rewrite Hen. reflexivity.
      * rewrite bool_decide_eq_false_2 by (by apply Hlang).
        cbn [Get]. rewrite bind_Throw. cbn [try_catch]. exact Hen.
  - rewrite en_table, Get_table, bind_Normal.
    destruct (translations_en !! k) as [s|] eqn:Hs.
    + rewrite (translations_truthy _ _ _ _ en_table Hs). reflexivity.
    + rewrite bool_decide_eq_false_2 by done. cbn [truthy try_catch].
      rewrite english_or_key_spec, Hs, bool_decide_eq_false_2 by done.
      reflexivity.
Qed.

End I18nFacts.

Example t_hindi :
  I18n.t I18n.bare_host "save" (Some "hi") = Normal (I18n.Str "सेव").
Proof. reflexivity. Qed.

Example t_unknown_language :
  I18n.t I18n.bare_host "save" (Some "fr") = Normal (I18n.Str "Save").
Proof. reflexivity. Qed.

Example t_unknown_key :
  I18n.t I18n.bare_host "logout" None = Normal (I18n.Str "logout").
Proof. reflexivity. Qed.

(** C10, corrected. For every key and language code, [t] returns and never
    throws. For every key and language code that are not names of
    properties inherited from [Object.prototype], it returns the
    translation for that key in the selected language when defined,
    otherwise the English translation when defined, otherwise the key. *)
Theorem t_total_and_falls_back (host_get : I18n.value → string →
    completion I18n.value) (key : string) (lang : option string) :
  (∃ v, I18n.t host_get key lang = Normal v)
  ∧ (key ∉ Object_prototype →
     (∀ l, lang = Some l → l ∉ Object_prototype) →
     I18n.t host_get key lang = Normal (I18n.Str (I18n.t_spec key lang))).
Proof.
  split.
  - apply t_total.
  - apply t_own.
Qed.

Lemma t_total_and_falls_back_witness :
  ("save" ∉ Object_prototype)
  ∧ (∀ l, Some "xx" = Some l → l ∉ Object_prototype)
  ∧ I18n.t I18n.bare_host "save" (Some "xx") = Normal (I18n.Str "Save").
Proof.
  assert (H1 : "save" ∉ Object_prototype).
  { apply (bool_decide_unpack _). vm_compute. exact I. }
  assert (H2 : ∀ l, Some "xx" = Some l → l ∉ Object_prototype).
  { intros l [= <-]. apply (bool_decide_unpack _). vm_compute. exact I. }
  split; [exact H1|]. split; [exact H2|].
  exact (proj2 (t_total_and_falls_back I18n.bare_host "save" (Some "xx"))
           H1 H2).
Defined.

(** C10 as stated fails on an inherited name: [translations.en] has no own
    property [constructor], the read finds [Object] on the prototype, which
    is truthy, and [t] returns it instead of the key. Likewise for the
    language: [translations.constructor] is [Object], whose [name] is the
    string "Object". *)
Lemma t_inherited_key_counterexample :
  I18n.t I18n.bare_host "constructor" (Some "en")
  = Normal (I18n.Builtin "constructor")
  ∧ I18n.t I18n.bare_host "constructor" (Some "en")
    ≠ Normal (I18n.Str (I18n.t_spec "constructor" (Some "en")))
  ∧ I18n.t I18n.named_host "name" (Some "constructor")
    = Normal (I18n.Str "Object")
  ∧ I18n.t_spec "name" (Some "constructor") = "name".
Proof.
  split; [reflexivity|]. split; [vm_compute; discriminate|].
  split; reflexivity.
Qed.

(** ** The Help component *)

Section HelpFacts.
Import Help.

Lemma startsWith_spec (s q : string) :
  startsWith s q = true ↔ ∃ post, s = q +:+ post.
Proof.
  revert s. induction q as [|c q IH]; intros s; cbn.
  - destruct s; split; eauto.
  - destruct s as [|d s]; cbn.
    + split; [discriminate|]. intros [post [=]].
    + rewrite andb_true_iff, IH. split.
      * intros [Hc [post ->]]. apply Ascii.eqb_eq in Hc as ->. eauto.
      * intros [post [= -> ->]]. split; [apply Ascii.eqb_refl|eauto].
Qed.

Lemma includes_spec (s q : string) :
  includes s q = true ↔ ∃ pre post, s = pre +:+ q +:+ post.
Proof.
  induction s as [|d s IH]; cbn [includes]; rewrite orb_true_iff.
  - rewrite startsWith_spec. split.
    + intros [[post ->]|[=]]. by exists EmptyString, post.
    + intros ([|c pre] & post & H); [|discriminate]. left. by exists post.
  - rewrite startsWith_spec, IH. split.
    + intros [[post ->]|(pre & post & ->)].
      * by exists EmptyString, post.
      * by exists (String d pre), post.
    + intros ([|c pre] & post & H).
      * left. by exists post.
      * right. exists pre, post. by injection H.
Qed.

Lemma Set_from_subseteq (seen l : list string) : Set_from seen l ⊆ l.
Proof.
  revert seen. induction l as [|x l IH]; intros seen; cbn; [done|].
  case_bool_decide; intros y Hy.
  - apply elem_of_cons. right. by apply (IH seen).
  - apply elem_of_cons in Hy as [->|Hy]; apply elem_of_cons; [by left|].
    right. by apply (IH (x :: seen)).
Qed.

Lemma topics_from_sections (e : string) :
  e ∈ topics → ∃ s, s ∈ sections ∧ (e = title s ∨ e ∈ items s).
Proof.
  intros He. apply Set_from_subseteq in He.
  apply list_elem_of_In, in_flat_map in He as (s & Hs & He).
  exists s. split; [by apply list_elem_of_In|].
  apply list_elem_of_In, elem_of_cons in He as [->|He]; auto.
Qed.

End HelpFacts.

Example topics_count : List.length Help.topics = 23.
Proof. reflexivity. Qed.

Example filtered_chat :
  Help.filtered Help.ascii_toLowerCase "CHAT"
  = ["Create a new chat using the " +:+ dquote +:+ "New Chat" +:+ dquote
       +:+ " button"].
Proof. reflexivity. Qed.

Example filtered_e :
  List.length (Help.filtered Help.ascii_toLowerCase "e") = 6.
Proof. reflexivity. Qed.

(** C9. For every query typed into the Help search box, whatever the case
    mapping of the host, the suggestion list has at most 6 entries, every
    entry is a help topic (a section title or an item) whose lowercased
    text contains the lowercased query as a substring, and the empty query
    yields the empty list. *)
Theorem filtered_suggestions (toLowerCase : string → string) (query : string) :
  (List.length (Help.filtered toLowerCase query) ≤ 6)%nat
  ∧ (∀ e, e ∈ Help.filtered toLowerCase query →
       e ∈ Help.topics
       ∧ (∃ s, s ∈ Help.sections ∧ (e = Help.title s ∨ e ∈ Help.items s))
       ∧ ∃ pre post,
           toLowerCase e = pre +:+ toLowerCase query +:+ post)
  ∧ Help.filtered toLowerCase EmptyString = [].
Proof.
  unfold Help.filtered. split; [|split; [|reflexivity]].
  - destruct (String.eqb query ""); cbn [List.length]; [lia|].
    rewrite length_take. lia.
  - intros e. destruct (String.eqb query ""); [by intros ?%elem_of_nil|].
    intros He. apply subseteq_take, list_elem_of_filter in He as [Hin He].
    split; [done|]. split; [by apply topics_from_sections|].
    apply includes_spec. by apply Is_true_true.
Qed.

Section ContactFacts.
Import Help.

Lemma run_timers_network (w : world) (l : list (N * callback)) :
  network (foldl (λ w tm, run tm.2 w) w l) = network w.
Proof. revert w. induction l as [|[due []] l IH]; intros w; cbn; [done|]. by rewrite IH. Qed.

Lemma run_timers_console (w : world) (l : list (N * callback)) :
  console (foldl (λ w tm, run tm.2 w) w l) = console w.
Proof. revert w. induction l as [|[due []] l IH]; intros w; cbn; [done|]. by rewrite IH. Qed.

(** Every callback is the reset, so running at least one timer leaves the
    flag down. *)
Lemma run_timers_submitted (w : world) (l : list (N * callback)) :
  submitted (foldl (λ w tm, run tm.2 w) w l)
  = match l with [] => submitted w | _ => false end.
Proof.
  revert w. induction l as [|[due []] l IH]; intros w; cbn; [done|].
  rewrite IH. by destruct l.
Qed.

Lemma none_due (t : N) (l : list (N * callback)) :
  (∀ tm, tm ∈ l → (t < tm.1)%N) → filter (λ tm, (tm.1 ≤ t)%N) l = [].
Proof.
  induction l as [|tm l IH]; intros Hl; [done|].
  rewrite filter_cons_False.
  - apply IH. intros tm' ?. apply Hl. by right.
  - specialize (Hl tm (list_elem_of_here _ _)). lia.
Qed.

End ContactFacts.

(** C4. Submitting the contact form is a placeholder: whatever the contact
    state and the rest of the world, [handleContactSubmit] sends nothing
    over the network, logs the contact object on the console, raises the
    [submitted] flag and sets one timer of 4000 milliseconds whose callback
    lowers it; the flag is down once 4000 milliseconds or more have gone by
    and, no older timer coming due, still up before that. *)
Theorem handleContactSubmit_placeholder (w : Help.world) :
  let w' := Help.handleContactSubmit w in
  Help.network w' = Help.network w
  ∧ Help.console w'
    = (Help.console w ++ [("Contact submission", Help.contact_cell w)])%list
  ∧ Help.submitted w' = true
  ∧ Help.timers w'
    = (Help.timers w ++ [((Help.now w + 4000)%N, Help.reset_submitted)])%list
  ∧ (∀ d, (4000 ≤ d)%N →
       Help.submitted (Help.elapse d w') = false
       ∧ Help.network (Help.elapse d w') = Help.network w)
  ∧ (∀ d, (d < 4000)%N →
       (∀ tm, tm ∈ Help.timers w → (Help.now w + d < tm.1)%N) →
       Help.submitted (Help.elapse d w') = true).
Proof.
  cbn zeta. repeat split.
  - intros. unfold Help.elapse.
    rewrite run_timers_submitted.
    cbn [Help.handleContactSubmit Help.setTimeout Help.timers Help.now
         Help.setSubmitted Help.console_log Help.preventDefault].
    rewrite filter_app, (filter_cons_True _ (_, _)) by (cbn; lia).
    by destruct (filter _ (Help.timers w)).
  - unfold Help.elapse. by rewrite run_timers_network.
  - intros d Hd Hold. unfold Help.elapse.
    rewrite run_timers_submitted.
    cbn [Help.handleContactSubmit Help.setTimeout Help.timers Help.now
         Help.setSubmitted Help.console_log Help.preventDefault].
    rewrite filter_app, (none_due _ _ Hold).
    rewrite filter_cons_False by (cbn; lia). reflexivity.
Qed.

Lemma handleContactSubmit_placeholder_witness :
  let w := Help.mkWorld (Help.mkContact "Asha" "asha@example.com" "Hello")
             false false [] [] [] 10 in
  Help.submitted (Help.elapse 4000 (Help.handleContactSubmit w)) = false
  ∧ Help.submitted (Help.elapse 3999 (Help.handleContactSubmit w)) = true.
Proof.
  intros w.
  destruct (handleContactSubmit_placeholder w)
    as (_ & _ & _ & _ & Hlate & Hearly).
  split.
  - apply Hlate. lia.
  - apply Hearly; [lia|]. intros tm Htm. by apply elem_of_nil in Htm.
Defined.

(** ** The Settings component *)

Section SettingsFacts.
Import Settings.

(** What [JSON.parse(localStorage.getItem('app_settings') || '{}')] yields. *)
Lemma parse_item_absent (ls : Storage) :
  getItem ls "app_settings" = None →
  JSON_parse (item_or_empty_object ls) = Normal (JObj ∅).
Proof. unfold item_or_empty_object. by intros ->. Qed.

Lemma parse_item_empty (ls : Storage) :
  getItem ls "app_settings" = Some NoText →
  JSON_parse (item_or_empty_object ls) = Normal (JObj ∅).
Proof. unfold item_or_empty_object. by intros ->. Qed.

Lemma parse_item_json (ls : Storage) (v : json) :
  getItem ls "app_settings" = Some (JSONText v) →
  JSON_parse (item_or_empty_object ls) = Normal v.
Proof. unfold item_or_empty_object. by intros ->. Qed.

Lemma parse_item_broken (ls : Storage) (raw : string) :
  getItem ls "app_settings" = Some (BrokenText raw) →
  JSON_parse (item_or_empty_object ls) = Throw SyntaxError.
Proof. unfold item_or_empty_object. by intros ->. Qed.

Lemma parse_item_cases (ls : Storage) :
  (∃ v, JSON_parse (item_or_empty_object ls) = Normal v)
  ∨ (∃ raw, getItem ls "app_settings" = Some (BrokenText raw)).
Proof.
  destruct (getItem ls "app_settings") as [[|v|raw]|] eqn:H.
  - left. eexists. by apply parse_item_empty.
  - left. eexists. by apply parse_item_json.
  - right. by eexists.
  - left. eexists. by apply parse_item_absent.
Qed.

Lemma getItem_setItem (ls : Storage) (k : string) (s : DOMString) :
  getItem (setItem ls k s) k = Some s.
Proof. apply lookup_insert_eq. Qed.


(** Property by property, a literal over a spread. *)
Lemma assign_lookup_notin (m : gmap string json)
    (fields : list (string * json)) (k : string) :
  k ∉ fields.*1 → assign m fields !! k = m !! k.
Proof.
  unfold assign. revert m.
  induction fields as [|[k' v'] fields IH]; intros m Hk; [done|].
  cbn in *. apply not_elem_of_cons in Hk as [Hne Hk].
  rewrite IH by done. by apply lookup_insert_ne.
Qed.

Lemma assign_lookup_in (m : gmap string json)
    (fields : list (string * json)) (k : string) (v : json) :
  NoDup fields.*1 → (k, v) ∈ fields → assign m fields !! k = Some v.
Proof.
  unfold assign. revert m.
  induction fields as [|[k' v'] fields IH]; intros m Hnd Hin.
  - by apply elem_of_nil in Hin.
  - cbn in *. apply NoDup_cons in Hnd as [Hk' Hnd].
    apply elem_of_cons in Hin as [[= -> ->]|Hin].
    + fold (assign (<[k' := v']> m) fields).
      rewrite assign_lookup_notin by done. apply lookup_insert_eq.
    + by apply IH.
Qed.

Ltac area_cases area :=
  destruct (String.eqb_spec area "preferences") as [->|?];
  [|destruct (String.eqb_spec area "personalization") as [->|?];
    [|destruct (String.eqb_spec area "profile") as [->|?];
      [|destruct (String.eqb_spec area "notifications") as [->|?];
        [|destruct (String.eqb_spec area "integrations") as [->|?]]]]].

Lemma area_fields_NoDup (area : string) (s : State) :
  NoDup (area_fields area s).*1.
Proof.
  unfold area_fields. area_cases area; cbn;
    apply (bool_decide_unpack _); vm_compute; exact I.
Qed.

(** When the stored text can be read, [saveChanges] stores the previous
    object with the fields of the area assigned on top. *)
Lemma saveChanges_parsed (area : string) (s : State) (ls : Storage)
    (stored : json) :
  JSON_parse (item_or_empty_object ls) = Normal stored →
  saveChanges area s ls
  = setItem ls "app_settings"
      (JSONText (JObj (assign (spread stored) (area_fields area s)))).
Proof.
  intros H. unfold saveChanges, area_fields. rewrite H, bind_Normal.
  area_cases area; reflexivity.
Qed.

Lemma saveChanges_broken (area : string) (s : State) (ls : Storage)
    (raw : string) :
  getItem ls "app_settings" = Some (BrokenText raw) →
  saveChanges area s ls = ls.
Proof.
  intros H. unfold saveChanges. by rewrite (parse_item_broken _ _ H).
Qed.

End SettingsFacts.

Example saveChanges_profile_on_stored_theme :
  let ls : gmap string Settings.DOMString :=
    {[ "app_settings" :=
         Settings.JSONText (Settings.obj [("theme", Settings.JStr "dark")]) ]} in
  ∃ o, Settings.saveChanges "profile" Settings.initial ls
       = {[ "app_settings" := Settings.JSONText (Settings.JObj o) ]}
       ∧ o !! "theme" = Some (Settings.JStr "dark")
       ∧ o !! "avatarPreview" = Some Settings.JNull
       ∧ o !! "fontSize" = None.
Proof. eexists. split; [reflexivity|]. repeat split. Qed.






Section MountFacts.
Import Settings.

(** The state after the setter calls of the load effect, for a stored
    object. *)
Lemma load_effect_object (ls : Storage) (o : gmap string json) :
  getItem ls "app_settings" = Some (JSONText (JObj o)) →
  foldl apply initial (load_effect ls)
  = mkState (profile initial) (avatarPreview initial)
      (pick (o !! "theme") (theme initial))
      (pick (o !! "fontSize") (fontSize initial))
      (pick (o !! "language") (language initial))
      (default (customizationEnabled initial) (o !! "customizationEnabled"))
      (pick (o !! "personality") (personality initial))
      (pick (o !! "customInstructions") (customInstructions initial))
      (pick (o !! "about") (about initial))
      (notifications initial) (twoFA initial) (apiKeys initial).
Proof.
  intros H. unfold load_effect. rewrite (parse_item_json _ _ H).
  repeat (rewrite bind_Normal; cbn [Get]). unfold pick, mret, completion_ret.
  generalize (o !! "theme") (o !! "fontSize") (o !! "language")
    (o !! "customizationEnabled") (o !! "personality")
    (o !! "customInstructions") (o !! "about").
  intros th fs la ce pe ci ab.
  destruct th as [th|]; [destruct (truthy th)|];
  (destruct fs as [fs|]; [destruct (truthy fs)|]);
  (destruct la as [la|]; [destruct (truthy la)|]);
  destruct ce as [ce|];
  (destruct pe as [pe|]; [destruct (truthy pe)|]);
  (destruct ci as [ci|]; [destruct (truthy ci)|]);
  (destruct ab as [ab|]; [destruct (truthy ab)|]);
  reflexivity.
Qed.

Lemma persist_effect_parsed (prefers_dark : bool) (s : State) (ls : Storage)
    (stored : json) :
  JSON_parse (item_or_empty_object ls) = Normal stored →
  ∃ doc, persist_effect prefers_dark s ls
         = Normal (doc, setItem ls "app_settings"
                          (JSONText (JObj (assign (spread stored)
                                             (preference_fields s))))).
Proof.
  intros H. unfold persist_effect. rewrite H, bind_Normal.
  eexists. reflexivity.
Qed.

Lemma Object_is_eq (old new : json) : Object_is old new = true → old = new.
Proof.
  destruct old, new; cbn; try discriminate; intros H; f_equal.
  - by apply Bool.eqb_prop.
  - by apply Z.eqb_eq.
  - by apply String.eqb_eq.
Qed.

(** A setter call with an identical value leaves the state as it is. *)
Lemma apply_unchanged (s : State) (a : action) :
  changes s a = false → apply s a = s.
Proof.
  unfold changes. intros H%negb_false_iff.
  destruct s, a; cbn in *; apply Object_is_eq in H; by subst.
Qed.

Lemma foldl_apply_unchanged (s : State) (l : list action) :
  existsb (changes s) l = false → foldl apply s l = s.
Proof.
  induction l as [|a l IH]; cbn; [done|].
  intros [Ha Hl]%orb_false_iff. rewrite (apply_unchanged _ _ Ha). auto.
Qed.

Lemma preference_fields_NoDup (s : State) : NoDup (preference_fields s).*1.
Proof. apply (bool_decide_unpack _). vm_compute. exact I. Qed.

(** Mounting over a readable item: the cells are those set by the load
    effect, and the item ends up as the stored value with these cells
    assigned on top. *)
Lemma mount_parsed (prefers_dark : bool) (ls : Storage) (stored : json) :
  JSON_parse (item_or_empty_object ls) = Normal stored →
  ∃ doc o',
    mount prefers_dark ls
    = Normal (foldl apply initial (load_effect ls), doc,
              setItem ls "app_settings" (JSONText (JObj o')))
    ∧ ∀ k v, (k, v) ∈ preference_fields (foldl apply initial (load_effect ls))
             → o' !! k = Some v.
Proof.
  intros H. unfold mount.
  destruct (persist_effect_parsed prefers_dark initial ls stored H)
    as [doc ->].
  rewrite bind_Normal.
  destruct (existsb _ _) eqn:Hchanged.
  - set (s := foldl apply initial (load_effect ls)).
    set (ls1 := setItem ls "app_settings" _).
    assert (H1 : JSON_parse (item_or_empty_object ls1)
                 = Normal (JObj (assign (spread stored)
                                   (preference_fields initial)))).
    { apply parse_item_json. apply getItem_setItem. }
    destruct (persist_effect_parsed prefers_dark s ls1 _ H1) as [doc' ->].
    rewrite bind_Normal. exists doc'. eexists. split.
    + unfold mret, completion_ret. f_equal. f_equal.
      unfold ls1, setItem. apply insert_insert_eq.
    + intros k v Hkv. cbn [spread].
      apply assign_lookup_in; [apply preference_fields_NoDup|done].
  - rewrite (foldl_apply_unchanged _ _ Hchanged).
    exists doc. eexists. split; [reflexivity|].
    intros k v Hkv.
    apply assign_lookup_in; [apply preference_fields_NoDup|done].
Qed.

Lemma pick_comes_back (v d : json) : comes_back v d → pick (Some v) d = v.
Proof. unfold pick. intros [->| ->]; [done|by destruct (truthy d)]. Qed.

(** The round trip of the component's own writes: what the persist effect
    has written for a restorable state, the next mount reads back into the
    seven cells. *)
Lemma persist_then_mount (prefers_dark : bool) (s : State) (ls : Storage)
    (stored : json) :
  JSON_parse (item_or_empty_object ls) = Normal stored →
  restorable s →
  ∃ doc ls1 s' doc' ls2,
    persist_effect prefers_dark s ls = Normal (doc, ls1)
    ∧ mount prefers_dark ls1 = Normal (s', doc', ls2)
    ∧ preference_fields s' = preference_fields s.
Proof.
  intros H (Hth & Hfs & Hla & Hpe & Hci & Hab).
  destruct (persist_effect_parsed prefers_dark s ls stored H) as [doc Hdoc].
  set (o1 := assign (spread stored) (preference_fields s)) in Hdoc.
  set (ls1 := setItem ls "app_settings" (JSONText (JObj o1))) in Hdoc.
  assert (H1 : getItem ls1 "app_settings" = Some (JSONText (JObj o1)))
    by apply getItem_setItem.
  destruct (mount_parsed prefers_dark ls1 _ (parse_item_json _ _ H1))
    as (doc' & o' & Hmount & _).
  eexists doc, ls1, _, doc', _. split; [exact Hdoc|]. split; [exact Hmount|].
  rewrite (load_effect_object _ _ H1).
  assert (Hin : ∀ k v, (k, v) ∈ preference_fields s → o1 !! k = Some v).
  { intros k v Hkv.
    apply assign_lookup_in; [apply preference_fields_NoDup|done]. }
  unfold preference_fields in *. cbn [theme fontSize language personality
    customizationEnabled customInstructions about].
  rewrite (Hin "theme" (theme s)), (Hin "fontSize" (fontSize s)),
    (Hin "language" (language s)),
    (Hin "customizationEnabled" (customizationEnabled s)),
    (Hin "personality" (personality s)),
    (Hin "customInstructions" (customInstructions s)),
    (Hin "about" (about s))
    by (apply list_elem_of_In; cbn; tauto).
  rewrite !pick_comes_back by done. reflexivity.
Qed.

(** The states that the load effect produces are restorable. *)
Lemma load_effect_restorable (ls : Storage) (o : gmap string json) :
  getItem ls "app_settings" = Some (JSONText (JObj o)) →
  restorable (foldl apply initial (load_effect ls)).
Proof.
  intros H. rewrite (load_effect_object _ _ H).
  assert (Hpick : ∀ x d, comes_back (pick x d) d).
  { intros [v|] d; cbn; [|by right].
    destruct (truthy v) eqn:Hv; [by left|by right]. }
  repeat split; apply Hpick.
Qed.

End MountFacts.

Example mount_broken_text :
  Settings.mount false {[ "app_settings" := Settings.BrokenText "{" ]}
  = Throw SyntaxError.
Proof. reflexivity. Qed.




(** ** The back end *)

(** C5. When the mail configuration (MAIL_USERNAME, MAIL_PASSWORD,
    MAIL_FROM) is absent, the email feature is disabled and [/test-email]
    answers 503; when all three are set, the feature is enabled and the
    answer is the one of the delivery attempt, never a 503 for want of
    configuration. *)
Theorem test_email_503_iff_unconfigured (e : Backend.environment)
    (sent : nat) :
  (Backend.is_set (Backend.MAIL_USERNAME e) = false
   ∨ Backend.is_set (Backend.MAIL_PASSWORD e) = false
   ∨ Backend.is_set (Backend.MAIL_FROM e) = false →
   Backend.mail_enabled e = false
   ∧ Backend.test_email e sent
     = Backend.mkResponse 503 Backend.mail_not_configured)
  ∧ (Backend.is_set (Backend.MAIL_USERNAME e) = true →
     Backend.is_set (Backend.MAIL_PASSWORD e) = true →
     Backend.is_set (Backend.MAIL_FROM e) = true →
     Backend.mail_enabled e = true
     ∧ Backend.test_email e sent = Backend.mkResponse sent Backend.delivery
     ∧ Backend.why (Backend.test_email e sent)
       ≠ Backend.mail_not_configured).
Proof.
  unfold Backend.test_email, Backend.mail_enabled. split.
  - intros [H|[H|H]]; rewrite H, ?andb_false_r; done.
  - intros -> -> ->. done.
Qed.

Lemma test_email_503_iff_unconfigured_witness :
  Backend.test_email (Backend.mkEnvironment None None None) 200
  = Backend.mkResponse 503 Backend.mail_not_configured
  ∧ Backend.test_email
      (Backend.mkEnvironment (Some "maya@example.com") (Some "secret")
         (Some "Maya <maya@example.com>")) 200
    = Backend.mkResponse 200 Backend.delivery.
Proof.
  split.
  - apply (test_email_503_iff_unconfigured
             (Backend.mkEnvironment None None None) 200).
    left. reflexivity.
  - apply (test_email_503_iff_unconfigured
             (Backend.mkEnvironment (Some "maya@example.com") (Some "secret")
                (Some "Maya <maya@example.com>")) 200); reflexivity.
Defined.

Section SearchFacts.
Import Backend.

Variable sha256_hexdigest : string → string.
Variable lower : string → string.
Variable serpapi : string → option string.
Variable google_custom_search : string → option string.

Abbreviation search :=
  (smart_search sha256_hexdigest lower serpapi google_custom_search).
Abbreviation key_of := (cache_key sha256_hexdigest lower).

Lemma get_setex (key : string) (ttl now t : N) (v : string) (r : redis) :
  get key t (setex key ttl v now r)
  = if (t <? now + ttl)%N then Some v else None.
Proof. unfold get, setex. by rewrite lookup_insert_eq. Qed.

Lemma smart_search_hit (query : string) (now : N) (r : redis)
    (cached : string) :
  get (key_of query) now r = Some cached →
  search query now r = (Some cached, r, []).
Proof. unfold smart_search. by intros ->. Qed.

Lemma smart_search_miss (query : string) (now : N) (r : redis) :
  get (key_of query) now r = None →
  search query now r
  = match web_search serpapi google_custom_search query with
    | (Some found, tried) =>
        (Some found, setex (key_of query) CACHE_TTL found now r, tried)
    | (None, tried) => (None, r, tried)
    end.
Proof. unfold smart_search. by intros ->. Qed.



End SearchFacts.



(** C7. A search that had to ask a provider stores what it found under the
    key derived from the hash of the query, to expire 3600 seconds later,
    and touches no other key. Until then the same query is answered from
    any cache that still holds this entry, with the stored result and
    without asking a provider; from the 3600th second on the entry is
    gone. *)
Theorem smart_search_cache_ttl (sha256_hexdigest lower : string → string)
    (serpapi google_custom_search : string → option string)
    (query : string) (now : N) (r : gmap string Backend.entry)
    (found : string) :
  let key := Backend.cache_key sha256_hexdigest lower query in
  let search :=
    Backend.smart_search sha256_hexdigest lower serpapi google_custom_search in
  Backend.get key now r = None →
  (search query now r).1.1 = Some found →
  let r' := (search query now r).1.2 in
  key = "search:query:" +:+ String.substring 0 16
                              (sha256_hexdigest (lower query))
  ∧ r' !! key = Some (Backend.mkEntry found (now + 3600))
  ∧ (∀ k, k ≠ key → r' !! k = r !! k)
  ∧ (∀ t (r'' : gmap string Backend.entry),
       r'' !! key = r' !! key → (now ≤ t < now + 3600)%N →
       search query t r'' = (Some found, r'', []))
  ∧ (∀ t, (now + 3600 ≤ t)%N → Backend.get key t r' = None).
Proof.
  cbn zeta. intros Hmiss.
  rewrite (smart_search_miss _ _ _ _ _ _ _ Hmiss).
  assert (Hstored : ∀ v,
    Some v = Some found →
    let r' := Backend.setex (Backend.cache_key sha256_hexdigest lower query)
                Backend.CACHE_TTL v now r in
    r' !! Backend.cache_key sha256_hexdigest lower query
    = Some (Backend.mkEntry found (now + 3600))
    ∧ (∀ k, k ≠ Backend.cache_key sha256_hexdigest lower query →
         r' !! k = r !! k)
    ∧ (∀ t (r'' : gmap string Backend.entry),
         r'' !! Backend.cache_key sha256_hexdigest lower query
         = r' !! Backend.cache_key sha256_hexdigest lower query →
         (now ≤ t < now + 3600)%N →
         Backend.smart_search sha256_hexdigest lower serpapi
           google_custom_search query t r'' = (Some found, r'', []))
    ∧ (∀ t, (now + 3600 ≤ t)%N →
         Backend.get (Backend.cache_key sha256_hexdigest lower query) t r'
         = None)).
  { intros v [= ->]. cbn zeta. unfold Backend.CACHE_TTL. repeat split.
    - apply lookup_insert_eq.
    - intros k Hk. by apply lookup_insert_ne.
    - intros t r'' Hsame Ht. apply smart_search_hit.
      unfold Backend.get. rewrite Hsame.
      unfold Backend.setex. rewrite lookup_insert_eq. cbn.
      destruct (N.ltb_spec t (now + 3600)); [done|lia].
    - intros t Ht. rewrite get_setex.
      destruct (N.ltb_spec t (now + 3600)); [lia|done]. }
  destruct (Backend.web_search _ _ query) as [[v|] tried]; cbn [fst snd].
  - intros Hv. split; [reflexivity|]. by apply Hstored.
  - discriminate.
Qed.

Lemma smart_search_cache_ttl_witness :
  let search := Backend.smart_search (λ s, s) (λ s, s) (λ q, Some q)
                  (λ _, None) in
  let r' := (search "Latest AI news" 100%N ∅).1.2 in
  search "Latest AI news" 3699%N r' = (Some "Latest AI news", r', [])
  ∧ Backend.get (Backend.cache_key (λ s, s) (λ s, s) "Latest AI news")
      3700%N r' = None.
Proof.
  intros search r'.
  assert (Hmiss : Backend.get
                    (Backend.cache_key (λ s, s) (λ s, s) "Latest AI news")
                    100%N ∅ = None) by (vm_compute; reflexivity).
  assert (Hfound : (search "Latest AI news" 100%N ∅).1.1
                   = Some "Latest AI news") by (vm_compute; reflexivity).
  destruct (smart_search_cache_ttl (λ s, s) (λ s, s) (λ q, Some q)
              (λ _, None) "Latest AI news" 100%N ∅ "Latest AI news"
              Hmiss Hfound) as (_ & _ & _ & Hhit & Hgone).
  split.
  - apply Hhit; [reflexivity|lia].
  - apply Hgone. lia.
Defined.

(** * Further properties *)

(** ** Help: topics and suggestions *)

Section TopicFacts.
Import Help.

Lemma Set_from_elem_of (seen l : list string) (x : string) :
  x ∈ Set_from seen l ↔ x ∈ l ∧ x ∉ seen.
Proof.
  revert seen. induction l as [|y l IH]; intros seen; cbn.
  - split; [by intros ?%elem_of_nil|by intros [?%elem_of_nil _]].
  - case_bool_decide as Hy.
    + rewrite IH, elem_of_cons. split.
      * intros [Hx Hseen]. auto.
      * intros [[->|Hx] Hseen]; [done|auto].
    + rewrite !elem_of_cons, IH, not_elem_of_cons. split.
      * intros [->|[Hx [_ Hseen]]]; auto.
      * intros [[->|Hx] Hseen]; [by left|].
        destruct (decide (x = y)) as [->|Hne]; [by left|by right].
Qed.

Lemma Set_from_NoDup (seen l : list string) : NoDup (Set_from seen l).
Proof.
  revert seen. induction l as [|y l IH]; intros seen; cbn.
  - constructor.
  - case_bool_decide as Hy; [apply IH|].
    apply NoDup_cons. split; [|apply IH].
    rewrite Set_from_elem_of, not_elem_of_cons. intros [_ [Hne _]]. done.
Qed.

Lemma Set_from_sublist (seen l : list string) :
  Set_from seen l `sublist_of` l.
Proof.
  revert seen. induction l as [|y l IH]; intros seen; cbn.
  - constructor.
  - case_bool_decide; [apply sublist_cons|apply sublist_skip]; apply IH.
Qed.

Lemma append_assoc (a b c : string) : (a +:+ b) +:+ c = a +:+ (b +:+ c).
Proof.
  induction a as [|x a IH]; [done|].
  change (String x ((a +:+ b) +:+ c) = String x (a +:+ (b +:+ c))).
  by rewrite IH.
Qed.

(** A substring of a substring is a substring. *)
Lemma includes_trans (s q r : string) :
  includes s q = true → includes q r = true → includes s r = true.
Proof.
  rewrite !includes_spec.
  intros (pre & post & ->) (pre' & post' & ->).
  exists (pre +:+ pre'), (post' +:+ post).
  by rewrite !append_assoc.
Qed.


End TopicFacts.

(** X1. [Array.from(new Set(l))] has no duplicates, has exactly the elements
    of [l] and keeps them in the order of [l]; so the topics are the section
    titles and items, each once. *)
Theorem topics_each_once (l : list string) :
  NoDup (Help.Set_from [] l)
  ∧ (∀ x, x ∈ Help.Set_from [] l ↔ x ∈ l)
  ∧ Help.Set_from [] l `sublist_of` l
  ∧ NoDup Help.topics
  ∧ (∀ e, e ∈ Help.topics ↔
       ∃ s, s ∈ Help.sections ∧ (e = Help.title s ∨ e ∈ Help.items s)).
Proof.
  split; [apply Set_from_NoDup|].
  split; [|split; [apply Set_from_sublist|split; [apply Set_from_NoDup|]]].
  - intros x. rewrite Set_from_elem_of. split; [by intros [Hx _]|].
    intros Hx. split; [done|]. by intros ?%elem_of_nil.
  - intros e. unfold Help.topics. rewrite Set_from_elem_of. split.
    + intros [He _]. apply list_elem_of_In, in_flat_map in He as (s & Hs & He).
      exists s. split; [by apply list_elem_of_In|].
      apply list_elem_of_In, elem_of_cons in He as [->|He]; auto.
    + intros (s & Hs & He). split; [|by intros ?%elem_of_nil].
      apply list_elem_of_In, in_flat_map. exists s.
      split; [by apply list_elem_of_In|].
      apply list_elem_of_In, elem_of_cons. destruct He; auto.
Qed.



(** X3. Typing more never brings up a new suggestion: when fewer than six
    suggestions are listed for a query, every suggestion for a query whose
    lowercased text contains the lowercased first one is among them. *)
Theorem filtered_refines (toLowerCase : string → string)
    (query query' e : string) :
  query ≠ EmptyString →
  Help.includes (toLowerCase query') (toLowerCase query) = true →
  (List.length (Help.filtered toLowerCase query) < 6)%nat →
  e ∈ Help.filtered toLowerCase query' →
  e ∈ Help.filtered toLowerCase query.
Proof.
  unfold Help.filtered. intros Hq Hsub Hfew.
  destruct (String.eqb_spec query "") as [->|_]; [done|].
  destruct (String.eqb query' ""); [by intros ?%elem_of_nil|].
  intros [He Hin]%subseteq_take%list_elem_of_filter.
  rewrite take_ge by (rewrite length_take in Hfew; lia).
  apply list_elem_of_filter. split; [|done].
  apply Is_true_true. apply Is_true_true in He.
  by eapply includes_trans.
Qed.

Lemma filtered_refines_witness :
  "Create a new chat using the " +:+ dquote +:+ "New Chat" +:+ dquote
    +:+ " button"
  ∈ Help.filtered Help.ascii_toLowerCase "chat".
Proof.
  apply (filtered_refines Help.ascii_toLowerCase "chat" "New Chat").
  - discriminate.
  - vm_compute. reflexivity.
  - vm_compute. lia.
  - vm_compute. left.
Defined.

(** ** Help: the slug of a selected suggestion *)

Section SlugFacts.
Import Help.

Lemma replace_runs_cons (in_run : bool) (c : Ascii.ascii) (s : string) :
  replace_runs in_run (String c s)
  = if is_slug_char c then String c (replace_runs false s)
    else if in_run then replace_runs true s
    else String dash (replace_runs true s).
Proof. reflexivity. Qed.

Lemma dash_not_slug_char (c : Ascii.ascii) :
  is_slug_char c = true → Ascii.eqb dash c = false.
Proof.
  intros Hc. destruct (Ascii.eqb_spec dash c) as [<-|]; [|done].
  vm_compute in Hc. discriminate.
Qed.

Local Abbreviation two_dashes := (String dash (String dash EmptyString)).

(** Neither flavour of the replacement puts two dashes side by side, and
    inside a run it does not even start with one. *)
Lemma replace_runs_dashes (s : string) :
  includes (replace_runs false s) two_dashes = false
  ∧ includes (replace_runs true s) two_dashes = false
  ∧ startsWith (replace_runs true s) (String dash EmptyString) = false.
Proof.
  induction s as [|c s (IH1 & IH2 & IH3)]; [done|].
  rewrite !replace_runs_cons.
  destruct (is_slug_char c) eqn:Hc.
  - assert (Hstart : ∀ q, startsWith (String c (replace_runs false s))
                            (String dash q) = false).
    { intros q. cbn. by rewrite (dash_not_slug_char _ Hc). }
    repeat split; [| |apply Hstart];
      cbn [includes]; by rewrite Hstart, IH1.
  - repeat split; [|done..].
    cbn [includes]. rewrite IH2, orb_false_r.
    cbn [startsWith].
    rewrite Ascii.eqb_refl. exact IH3.
Qed.

Lemma replace_runs_alphabet (in_run : bool) (s : string) :
  Forall (λ c, is_slug_char c = true ∨ c = dash)
    (String.list_ascii_of_string (replace_runs in_run s)).
Proof.
  revert in_run. induction s as [|c s IH]; intros in_run; [constructor|].
  rewrite replace_runs_cons.
  destruct (is_slug_char c) eqn:Hc; [|destruct in_run]; cbn; auto.
Qed.

Lemma replace_runs_keeps (in_run : bool) (s : string) :
  List.filter is_slug_char (String.list_ascii_of_string (replace_runs in_run s))
  = List.filter is_slug_char (String.list_ascii_of_string s).
Proof.
  revert in_run. induction s as [|c s IH]; intros in_run; [done|].
  rewrite replace_runs_cons.
  destruct (is_slug_char c) eqn:Hc; [|destruct in_run]; cbn; rewrite ?Hc, ?IH;
    done.
Qed.

(** The replacement leaves its own output alone. *)
Lemma replace_runs_idem (s : string) :
  replace_runs false (replace_runs false s) = replace_runs false s
  ∧ replace_runs true (replace_runs true s) = replace_runs true s.
Proof.
  induction s as [|c s [IH1 IH2]]; [done|].
  rewrite !replace_runs_cons.
  destruct (is_slug_char c) eqn:Hc.
  - rewrite !replace_runs_cons, Hc, IH1. done.
  - split; [|done]. rewrite replace_runs_cons.
    change (is_slug_char dash) with false. cbn iota. by rewrite IH2.
Qed.

End SlugFacts.

(** X4. The slug that [handleSelectSuggestion] looks up: whatever the text
    and the case mapping, it is made of lowercase letters, digits and
    dashes only, never has two dashes side by side, keeps the letters and
    digits of the lowercased text in their order, and is left unchanged by
    a second replacement. The handler puts the text into the query, closes
    the list, and scrolls only to an element whose id is [help-] followed
    by that slug. *)
Theorem slug_shape (toLowerCase : string → string)
    (has_element : string → bool) (text : string) (st : Help.search_box) :
  let sl := Help.slug toLowerCase text in
  Forall (λ c, Help.is_slug_char c = true ∨ c = Help.dash)
    (String.list_ascii_of_string sl)
  ∧ Help.includes sl (String Help.dash (String Help.dash EmptyString)) = false
  ∧ List.filter Help.is_slug_char (String.list_ascii_of_string sl)
    = List.filter Help.is_slug_char (String.list_ascii_of_string (toLowerCase text))
  ∧ Help.replace_runs false sl = sl
  ∧ (Help.handleSelectSuggestion toLowerCase has_element text st).1
    = Help.mkSearchBox text false
  ∧ (∀ el, (Help.handleSelectSuggestion toLowerCase has_element text st).2
           = Some el →
       el = "help-" +:+ sl ∧ has_element el = true).
Proof.
  cbn zeta. unfold Help.slug.
  split; [apply replace_runs_alphabet|].
  split; [apply replace_runs_dashes|].
  split; [apply replace_runs_keeps|].
  split; [apply replace_runs_idem|].
  split; [reflexivity|].
  unfold Help.handleSelectSuggestion, Help.slug. cbn [snd].
  intros el. destruct (has_element _) eqn:Hel; [|discriminate].
  by intros [= <-].
Qed.

Lemma slug_shape_witness :
  Help.slug Help.ascii_toLowerCase "Account & Profile" = "account-profile"
  ∧ (Help.handleSelectSuggestion Help.ascii_toLowerCase
       (λ el, String.eqb el "help-account-profile") "Account & Profile"
       Help.search_box_initial).2
    = Some "help-account-profile".
Proof.
  split; [reflexivity|].
  destruct (slug_shape Help.ascii_toLowerCase
              (λ el, String.eqb el "help-account-profile")
              "Account & Profile" Help.search_box_initial)
    as (_ & _ & _ & _ & _ & Hscroll).
  destruct (Help.handleSelectSuggestion _ _ _ _).2 as [el|] eqn:Hel;
    [|discriminate].
  destruct (Hscroll el eq_refl) as [-> _]. reflexivity.
Defined.

(** ** Help: panels, FAQ, the suggestion list, a second submission *)

Section PanelFacts.
Import Help.

Lemma is_open_insert (s : gmap string bool) (key : string) (b : bool) :
  is_open (<[key := b]> s) key = b.
Proof. unfold is_open. by rewrite lookup_insert_eq. Qed.

Lemma is_open_insert_ne (s : gmap string bool) (key key' : string) (b : bool) :
  key ≠ key' → is_open (<[key := b]> s) key' = is_open s key'.
Proof. intros. unfold is_open. by rewrite lookup_insert_ne. Qed.

(** The decimal numeral of a number is made of digits. *)
Lemma pretty_N_go_digits (x : N) (s : string) :
  digits s = true → digits (pretty_N_go x s) = true.
Proof.
  revert s. induction (N.lt_wf_0 x) as [x _ IH]; intros s Hs.
  assert (x = 0 ∨ 0 < x)%N as [->|Hpos] by lia.
  - by rewrite pretty_N_go_0.
  - rewrite pretty_N_go_step by done. apply IH; [by apply N.div_lt|].
    cbn [digits]. rewrite Hs, andb_true_r.
    unfold pretty_N_char. by repeat case_match.
Qed.

Lemma pretty_nat_digits (i : nat) : digits (pretty i) = true.
Proof.
  unfold pretty, pretty_nat, pretty, pretty_N.
  case_decide; [done|]. by apply pretty_N_go_digits.
Qed.

Lemma pretty_nat_not_inherited (i : nat) : pretty i ∉ Object_prototype.
Proof.
  intros Hin. pose proof (pretty_nat_digits i) as Hd.
  unfold Object_prototype in Hin.
  repeat (apply elem_of_cons in Hin as [Heq|Hin];
          [rewrite Heq in Hd; vm_compute in Hd; discriminate|]).
  by apply elem_of_nil in Hin.
Qed.

End PanelFacts.

(** X5. [togglePanel] flips the panel it is given and no other one; two
    toggles of a panel leave every panel as it was; toggles of different
    panels can be swapped. Initially the first section is open and the
    other four are closed. *)
Theorem togglePanel_flips (key key' : string) (s : gmap string bool) :
  Help.is_open (Help.togglePanel key s) key = negb (Help.is_open s key)
  ∧ (key' ≠ key →
     Help.is_open (Help.togglePanel key s) key' = Help.is_open s key')
  ∧ Help.is_open (Help.togglePanel key (Help.togglePanel key s)) key'
    = Help.is_open s key'
  ∧ (key' ≠ key →
     Help.togglePanel key (Help.togglePanel key' s)
     = Help.togglePanel key' (Help.togglePanel key s))
  ∧ (λ sec, Help.is_open Help.openPanels_initial (Help.key sec))
      <$> Help.sections
    = [true; false; false; false; false].
Proof.
  unfold Help.togglePanel. split; [apply is_open_insert|].
  split; [intros; by apply is_open_insert_ne|]. split; [|split].
  - destruct (decide (key = key')) as [<-|Hne].
    + rewrite !is_open_insert. apply negb_involutive.
    + by rewrite !is_open_insert_ne.
  - intros Hne. rewrite !is_open_insert_ne by done.
    by apply insert_insert_ne.
  - reflexivity.
Qed.

Lemma togglePanel_flips_witness :
  Help.is_open (Help.togglePanel "tips" Help.openPanels_initial)
    "getting-started" = true
  ∧ Help.togglePanel "tips"
      (Help.togglePanel "getting-started" Help.openPanels_initial)
    = Help.togglePanel "getting-started"
        (Help.togglePanel "tips" Help.openPanels_initial).
Proof.
  destruct (togglePanel_flips "tips" "getting-started"
              Help.openPanels_initial) as (_ & Hframe & _ & Hswap & _).
  split.
  - rewrite Hframe by discriminate. reflexivity.
  - apply Hswap. discriminate.
Defined.

(** X6. Every answer of the FAQ is closed at first; [toggleFaq] opens or
    closes the question it is given, leaves every other question as it was,
    and two toggles of a question bring every question back. *)
Theorem toggleFaq_flips (i j : nat) (s : gmap string bool) :
  Help.is_open Help.openFaq_initial (pretty i) = false
  ∧ Help.is_open (Help.toggleFaq i s) (pretty i)
    = negb (Help.is_open s (pretty i))
  ∧ Help.is_open (Help.toggleFaq i Help.openFaq_initial) (pretty i) = true
  ∧ (j ≠ i →
     Help.is_open (Help.toggleFaq i s) (pretty j) = Help.is_open s (pretty j))
  ∧ Help.is_open (Help.toggleFaq i (Help.toggleFaq i s)) (pretty j)
    = Help.is_open s (pretty j).
Proof.
  assert (Hclosed : Help.is_open Help.openFaq_initial (pretty i) = false).
  { unfold Help.is_open, Help.openFaq_initial. rewrite lookup_empty.
    apply bool_decide_eq_false_2, pretty_nat_not_inherited. }
  unfold Help.toggleFaq. split; [exact Hclosed|].
  split; [apply is_open_insert|].
  split; [by rewrite is_open_insert, Hclosed|]. split.
  - intros Hne. apply is_open_insert_ne. by intros ?%(inj pretty).
  - destruct (decide (i = j)) as [<-|Hne].
    + rewrite !is_open_insert. apply negb_involutive.
    + rewrite !is_open_insert_ne; [done|by intros ?%(inj pretty)..].
Qed.

Lemma toggleFaq_flips_witness :
  Help.is_open (Help.toggleFaq 1 (Help.toggleFaq 0 Help.openFaq_initial))
    (pretty 0) = true.
Proof.
  destruct (toggleFaq_flips 1 0 (Help.toggleFaq 0 Help.openFaq_initial))
    as (_ & _ & _ & Hframe & _).
  rewrite Hframe by discriminate. reflexivity.
Defined.

Section DropdownFacts.
Import Help.

Variable toLowerCase : string → string.

Lemma filtered_nonempty_query (q : string) :
  filtered toLowerCase q ≠ [] → q ≠ EmptyString.
Proof. intros H ->. by apply H. Qed.

Lemma filtered_length (q : string) :
  (List.length (filtered toLowerCase q) ≤ 6)%nat.
Proof.
  unfold filtered. destruct (String.eqb q ""); cbn [List.length]; [lia|].
  rewrite length_take. lia.
Qed.

Lemma dropdown_visible (st : search_box) :
  dropdown toLowerCase st
  = if showSuggestions st && negb (String.eqb (query st) "")
    then Some ((if (List.length (filtered toLowerCase (query st)) =? 0)%nat
                then [no_suggestion] else [])
               ++ (suggestion <$> filtered toLowerCase (query st)))%list
    else None.
Proof.
  unfold dropdown. destruct (showSuggestions st); [|done]. cbn [andb].
  destruct (String.eqb_spec (query st) "") as [Hq|Hq]; [|by rewrite orb_true_r].
  rewrite Hq. reflexivity.
Qed.

End DropdownFacts.

(** X7. The suggestion list is rendered exactly when the box has been
    focused or typed into since the last selection or outside click and the
    query is not empty. It then has between one and six rows: the topics
    that [filtered] gives, or the single no-suggestion row when there is
    none. Selecting a suggestion closes it. *)
Theorem dropdown_rows (toLowerCase : string → string)
    (has_element : string → bool) (st : Help.search_box) (text : string) :
  (is_Some (Help.dropdown toLowerCase st) ↔
     Help.showSuggestions st = true ∧ Help.query st ≠ EmptyString)
  ∧ (∀ rows, Help.dropdown toLowerCase st = Some rows →
       (1 ≤ List.length rows ≤ 6)%nat
       ∧ (Help.filtered toLowerCase (Help.query st) = [] →
          rows = [Help.no_suggestion])
       ∧ (Help.filtered toLowerCase (Help.query st) ≠ [] →
          rows = Help.suggestion <$> Help.filtered toLowerCase (Help.query st)))
  ∧ Help.dropdown toLowerCase
      (Help.handleSelectSuggestion toLowerCase has_element text st).1 = None
  ∧ Help.dropdown toLowerCase (Help.onDocClick false st) = None
  ∧ (is_Some (Help.dropdown toLowerCase (Help.onChange text st)) ↔
       text ≠ EmptyString).
Proof.
  rewrite !dropdown_visible. split; [|split; [|split; [|split]]].
  - destruct (Help.showSuggestions st); cbn [andb].
    + destruct (String.eqb_spec (Help.query st) "") as [Hq|Hq]; cbn [negb].
      * split; [by intros [? ?]|]. by intros [_ ?].
      * split; [done|]. intros _. by eexists.
    + split; [by intros [? ?]|]. by intros [? _].
  - intros rows.
    destruct (Help.showSuggestions st && _); [|discriminate].
    intros [= <-].
    pose proof (filtered_length toLowerCase (Help.query st)) as Hlen.
    destruct (Help.filtered toLowerCase (Help.query st)) as [|e f] eqn:Hf.
    + cbn. split; [lia|]. split; [done|]. by intros ?.
    + cbn in *. rewrite length_fmap. split; [lia|]. split; [discriminate|done].
  - reflexivity.
  - reflexivity.
  - cbn [Help.onChange Help.showSuggestions Help.query andb].
    destruct (String.eqb_spec text "") as [Hq|Hq]; cbn [negb].
    + split; [by intros [? ?]|done].
    + split; [done|]. intros _. by eexists.
Qed.

Lemma dropdown_rows_witness :
  ∃ rows,
    Help.dropdown Help.ascii_toLowerCase (Help.mkSearchBox "zebra" true)
    = Some rows
    ∧ rows = [Help.no_suggestion].
Proof.
  assert (Hd : Help.dropdown Help.ascii_toLowerCase
                 (Help.mkSearchBox "zebra" true)
               = Some [Help.no_suggestion]) by (vm_compute; reflexivity).
  exists [Help.no_suggestion]. split; [exact Hd|].
  destruct (dropdown_rows Help.ascii_toLowerCase (λ _, false)
              (Help.mkSearchBox "zebra" true) EmptyString)
    as (_ & Hrows & _).
  destruct (Hrows _ Hd) as (_ & Hnone & _).
  apply Hnone. vm_compute. reflexivity.
Defined.

Ltac decide_lia :=
  repeat match goal with
         | H : ¬ ¬ _ |- _ => apply dec_stable in H
         | |- context [decide ?P] =>
             destruct (decide P); try (exfalso; cbn in *; lia); cbn
         end;
  try (exfalso; cbn in *; lia).

(** X8. A second submission made less than 4000 milliseconds after the first
    raises the flag again, but the timer of the first one takes it down
    4000 milliseconds after the first submission, that is sooner than 4000
    milliseconds after a later second one; the second timer, still pending
    then, will find it down. The contact cell is never cleared. *)
Theorem second_submission_cut_short (w : Help.world) (d : N) :
  Help.timers w = [] →
  (d < 4000)%N →
  let w2 := Help.handleContactSubmit
              (Help.elapse d (Help.handleContactSubmit w)) in
  Help.submitted w2 = true
  ∧ (∀ d', (d' < 4000 - d)%N → Help.submitted (Help.elapse d' w2) = true)
  ∧ (∀ d', (4000 - d ≤ d')%N → Help.submitted (Help.elapse d' w2) = false)
  ∧ ((0 < d)%N →
     Help.timers (Help.elapse (4000 - d) w2)
     = [((Help.now w + d + 4000)%N, Help.reset_submitted)])
  ∧ (∀ d', Help.contact_cell (Help.elapse d' w2) = Help.contact_cell w).
Proof.
  intros Hnone Hd. destruct w as [c sub prev con net tms t0].
  cbn in Hnone. subst tms. cbn zeta.
  assert (H1 : Help.elapse d (Help.handleContactSubmit
                 (Help.mkWorld c sub prev con net [] t0))
               = Help.mkWorld c true true
                   (con ++ [("Contact submission", c)]) net
                   [((t0 + 4000)%N, Help.reset_submitted)] (t0 + d)%N).
  { unfold Help.elapse, Help.handleContactSubmit. cbn. by decide_lia. }
  rewrite H1. clear H1.
  split; [reflexivity|].
  unfold Help.elapse, Help.handleContactSubmit. cbn.
  split; [|split; [|split]].
  - intros d' Hd'. by decide_lia.
  - intros d' Hd'. by decide_lia.
  - intros Hpos. by decide_lia.
  - intros d'. by repeat (destruct (decide _); cbn).
Qed.

Lemma second_submission_cut_short_witness :
  let w := Help.mkWorld (Help.mkContact "Asha" "asha@example.com" "Hello")
             false false [] [] [] 0 in
  Help.submitted
    (Help.elapse 1000
       (Help.handleContactSubmit
          (Help.elapse 3000 (Help.handleContactSubmit w)))) = false.
Proof.
  intros w.
  destruct (second_submission_cut_short w 3000 eq_refl) as (_ & _ & Hcut & _).
  - reflexivity.
  - apply Hcut. reflexivity.
Defined.

(** ** Settings: API keys *)

(** X9. [revokeApiKey] removes every key with the given id and nothing else,
    keeps the order, and changes nothing when no key has that id or when
    repeated; [generateApiKey] puts the new key first; revoking the key
    just generated also removes any older key that happens to share its id,
    and gives back the previous list when none does. The initial cell is
    the array of the one default key. *)
Theorem revokeApiKey_removes (random today revoked : string)
    (s : list Settings.ApiKey) :
  (∀ k, k ∈ Settings.revokeApiKey revoked s ↔
        k ∈ s ∧ Settings.id k ≠ revoked)
  ∧ Settings.revokeApiKey revoked s `sublist_of` s
  ∧ ((∀ k, k ∈ s → Settings.id k ≠ revoked) →
     Settings.revokeApiKey revoked s = s)
  ∧ Settings.revokeApiKey revoked (Settings.revokeApiKey revoked s)
    = Settings.revokeApiKey revoked s
  ∧ Settings.generateApiKey random today s
    = Settings.mkApiKey ("k_" +:+ random) "New key" today :: s
  ∧ Settings.revokeApiKey ("k_" +:+ random)
      (Settings.generateApiKey random today s)
    = Settings.revokeApiKey ("k_" +:+ random) s
  ∧ ((∀ k, k ∈ s → Settings.id k ≠ "k_" +:+ random) →
     Settings.revokeApiKey ("k_" +:+ random)
       (Settings.generateApiKey random today s) = s)
  ∧ Settings.apiKeys Settings.initial
    = Settings.JArr (Settings.ApiKey_json <$> Settings.apiKeys_initial).
Proof.
  assert (Hid : ∀ r (l : list Settings.ApiKey),
            (∀ k, k ∈ l → Settings.id k ≠ r) → Settings.revokeApiKey r l = l).
  { intros r l. unfold Settings.revokeApiKey.
    induction l as [|k l IH]; intros Hall; [done|].
    rewrite filter_cons_True by (apply Hall; left).
    f_equal. apply IH. intros k' ?. apply Hall. by right. }
  assert (Hgen : Settings.revokeApiKey ("k_" +:+ random)
                   (Settings.generateApiKey random today s)
                 = Settings.revokeApiKey ("k_" +:+ random) s).
  { unfold Settings.revokeApiKey, Settings.generateApiKey.
    by rewrite filter_cons_False by (cbn; auto). }
  split; [|split; [|split; [|split; [|split; [|split; [|split]]]]]].
  - intros k. unfold Settings.revokeApiKey. rewrite list_elem_of_filter.
    tauto.
  - apply sublist_filter.
  - apply Hid.
  - apply Hid. intros k [Hk _]%list_elem_of_filter. exact Hk.
  - reflexivity.
  - exact Hgen.
  - intros Hfresh. rewrite Hgen. by apply Hid.
  - reflexivity.
Qed.

Lemma revokeApiKey_removes_witness :
  Settings.revokeApiKey "k_8f3a2c1d"
    (Settings.generateApiKey "8f3a2c1d" "2025-11-02" Settings.apiKeys_initial)
  = Settings.apiKeys_initial.
Proof.
  destruct (revokeApiKey_removes "8f3a2c1d" "2025-11-02" "k_123"
              Settings.apiKeys_initial)
    as (_ & _ & _ & _ & _ & _ & Hback & _).
  apply Hback. intros k Hk. apply list_elem_of_singleton in Hk as ->.
  discriminate.
Defined.

(** ** Settings: how saves and mounts compose *)

Section SaveFacts.
Import Settings.

Lemma assign_app (m : gmap string json) (f g : list (string * json)) :
  assign (assign m f) g = assign m (f ++ g).
Proof. unfold assign. by rewrite foldl_app. Qed.

(** Property by property, for fields without a repeated name. *)
Lemma assign_lookup (m : gmap string json) (f : list (string * json))
    (k : string) :
  NoDup f.*1 →
  (∃ v, (k, v) ∈ f ∧ assign m f !! k = Some v)
  ∨ ((k ∉ f.*1) ∧ assign m f !! k = m !! k).
Proof.
  intros Hnd. destruct (decide (k ∈ f.*1)) as [Hin|Hout].
  - left. apply list_elem_of_fmap in Hin as ([k' v] & -> & Hin).
    exists v. split; [done|]. by apply assign_lookup_in.
  - right. split; [done|]. by apply assign_lookup_notin.
Qed.

(** Assigning what is already there changes nothing. *)
Lemma assign_id (m : gmap string json) (f : list (string * json)) :
  (∀ k v, (k, v) ∈ f → m !! k = Some v) → assign m f = m.
Proof.
  unfold assign. revert m. induction f as [|[k v] f IH]; intros m Hm; [done|].
  cbn. rewrite insert_id by (apply Hm; left). apply IH.
  intros k' v' ?. apply Hm. by right.
Qed.

(** A later assignment to the same names wins. *)
Lemma assign_overwrite (m : gmap string json) (f g : list (string * json)) :
  NoDup f.*1 → NoDup g.*1 → f.*1 = g.*1 →
  assign (assign m f) g = assign m g.
Proof.
  intros Hf Hg Hkeys. apply map_eq. intros k.
  destruct (assign_lookup (assign m f) g k Hg) as [(v & Hin & ->)|[Hout ->]].
  - symmetry. by apply assign_lookup_in.
  - rewrite !assign_lookup_notin; [done|done|by rewrite Hkeys].
Qed.

(** Assignments to different names can be swapped. *)
Lemma assign_swap (m : gmap string json) (f g : list (string * json)) :
  NoDup f.*1 → NoDup g.*1 → (∀ k, k ∈ f.*1 → k ∉ g.*1) →
  assign (assign m f) g = assign (assign m g) f.
Proof.
  intros Hf Hg Hdisj. apply map_eq. intros k.
  destruct (assign_lookup (assign m f) g k Hg) as [(v & Hin & ->)|[Hout ->]].
  - assert (k ∉ f.*1).
    { intros Hk. apply (Hdisj k Hk), list_elem_of_fmap. by exists (k, v). }
    rewrite assign_lookup_notin by done. symmetry.
    by apply assign_lookup_in.
  - destruct (assign_lookup m f k Hf) as [(v & Hin & ->)|[Hout' ->]].
    + symmetry. by apply assign_lookup_in.
    + by rewrite !assign_lookup_notin.
Qed.

Lemma setItem_setItem (ls : Storage) (k : string) (a b : DOMString) :
  setItem (setItem ls k a) k b = setItem ls k b.
Proof. apply insert_insert_eq. Qed.

(** What [saveChanges] does to a storage it has just written. *)
Lemma saveChanges_after_write (area : string) (s : State) (ls : Storage)
    (m : gmap string json) :
  saveChanges area s (setItem ls "app_settings" (JSONText (JObj m)))
  = setItem ls "app_settings" (JSONText (JObj (assign m (area_fields area s)))).
Proof.
  rewrite (saveChanges_parsed _ _ _ (JObj m)).
  - apply setItem_setItem.
  - apply parse_item_json, getItem_setItem.
Qed.

Lemma areas_disjoint (a b : string) (s s' : State) :
  a ∈ areas → b ∈ areas → a ≠ b →
  ∀ k, k ∈ (area_fields a s).*1 → k ∉ (area_fields b s').*1.
Proof.
  unfold areas. intros Ha Hb Hab.
  repeat (apply elem_of_cons in Ha as [->|Ha]);
    [..|by apply elem_of_nil in Ha];
    (repeat (apply elem_of_cons in Hb as [->|Hb]);
     [..|by apply elem_of_nil in Hb]); try done;
    cbn; intros k Hk;
    repeat (apply elem_of_cons in Hk as [->|Hk]);
    try (by apply elem_of_nil in Hk);
    apply (bool_decide_unpack _); vm_compute; exact I.
Qed.

End SaveFacts.

(** X10. Saving an area twice is the same as saving it once, and saves of
    two different areas can be swapped, even when their closures captured
    different states: the five areas write disjoint properties. *)
Theorem saveChanges_idempotent_and_swaps (a b : string)
    (s s' : Settings.State) (ls : gmap string Settings.DOMString) :
  Settings.saveChanges a s (Settings.saveChanges a s ls)
  = Settings.saveChanges a s ls
  ∧ (a ∈ Settings.areas → b ∈ Settings.areas → a ≠ b →
     Settings.saveChanges a s (Settings.saveChanges b s' ls)
     = Settings.saveChanges b s' (Settings.saveChanges a s ls)).
Proof.
  destruct (parse_item_cases ls) as [[stored H]|[raw H]].
  - rewrite !(saveChanges_parsed _ _ ls _ H), !saveChanges_after_write.
    split.
    + do 3 f_equal.
      apply assign_overwrite; auto using area_fields_NoDup.
    + intros Ha Hb Hab. do 3 f_equal.
      apply assign_swap; auto using area_fields_NoDup.
      by apply areas_disjoint.
  - repeat rewrite (saveChanges_broken _ _ ls _ H). done.
Qed.

Lemma saveChanges_idempotent_and_swaps_witness :
  Settings.saveChanges "profile" Settings.initial
    (Settings.saveChanges "notifications" Settings.initial ∅)
  = Settings.saveChanges "notifications" Settings.initial
      (Settings.saveChanges "profile" Settings.initial ∅).
Proof.
  apply (saveChanges_idempotent_and_swaps "profile" "notifications").
  - apply (bool_decide_unpack _). vm_compute. exact I.
  - apply (bool_decide_unpack _). vm_compute. exact I.
  - discriminate.
Defined.

Section SaveAllFacts.
Import Settings.





End SaveAllFacts.



(** X12. Once the persist effect has run for a state, the Save buttons of
    the preferences and personalization areas change nothing for that
    state: their fields are in the storage already. *)
Theorem save_after_persist_is_noop (prefers_dark : bool)
    (s : Settings.State) (ls ls1 : gmap string Settings.DOMString)
    (doc : Settings.Document) :
  Settings.persist_effect prefers_dark s ls = Normal (doc, ls1) →
  Settings.saveChanges "preferences" s ls1 = ls1
  ∧ Settings.saveChanges "personalization" s ls1 = ls1.
Proof.
  intros Hp.
  destruct (parse_item_cases ls) as [[stored H]|[raw H]].
  - destruct (persist_effect_parsed prefers_dark s ls stored H) as [doc' Hd].
    rewrite Hd in Hp. injection Hp as _ <-.
    rewrite !saveChanges_after_write.
    assert (Hin : ∀ k v, (k, v) ∈ Settings.preference_fields s →
              Settings.assign (Settings.spread stored)
                (Settings.preference_fields s) !! k = Some v).
    { intros k v Hkv.
      apply assign_lookup_in; [apply preference_fields_NoDup|done]. }
    split; rewrite assign_id.
    + reflexivity.
    + intros k v Hkv. apply Hin. apply list_elem_of_In.
      apply list_elem_of_In in Hkv. cbn in *. tauto.
    + reflexivity.
    + intros k v Hkv. apply Hin. apply list_elem_of_In.
      apply list_elem_of_In in Hkv. cbn in *. tauto.
  - unfold Settings.persist_effect in Hp.
    rewrite (parse_item_broken _ _ H) in Hp. discriminate.
Qed.

Lemma save_after_persist_is_noop_witness :
  ∃ doc ls1,
    Settings.persist_effect false Settings.initial ∅ = Normal (doc, ls1)
    ∧ Settings.saveChanges "preferences" Settings.initial ls1 = ls1.
Proof.
  eexists _, _. split; [reflexivity|].
  eapply (save_after_persist_is_noop false Settings.initial ∅). reflexivity.
Defined.

Section RemountFacts.
Import Settings.








End RemountFacts.







Section OtherCells.
Import Settings.


End OtherCells.



(** ** The translation lookup: labels *)

Section LabelFacts.
Import I18n.

Variable host_get : value → string → completion value.

Lemma english_or_key_truthy (k : string) :
  k ≠ EmptyString →
  ∃ v, english_or_key host_get k = Normal v ∧ truthy v = true.
Proof.
  intros Hk. rewrite english_or_key_spec.
  destruct (translations_en !! k) as [s|] eqn:Hs.
  - eexists. split; [reflexivity|].
    by apply (translations_truthy _ _ _ _ en_table Hs).
  - case_bool_decide; eexists; (split; [reflexivity|]); [done|].
    cbn. by destruct (String.eqb_spec k "").
Qed.

(** Every key of the English table is a key of each table. *)
Lemma tables_cover_english (l : string) (table : gmap string string)
    (k : string) :
  tables !! l = Some table →
  is_Some (translations_en !! k) → is_Some (table !! k).
Proof.
  assert (Hall : ∀ table' : gmap string string,
            forallb (λ e, bool_decide (is_Some (table' !! e.1)))
              (map_to_list translations_en) = true →
            is_Some (translations_en !! k) → is_Some (table' !! k)).
  { intros table' Hf [s Hs]. rewrite forallb_forall in Hf.
    apply elem_of_map_to_list, list_elem_of_In, Hf in Hs.
    by apply bool_decide_eq_true in Hs. }
  rewrite tables_unfold, !lookup_insert.
  repeat case_decide; intros [= <-]; apply Hall; vm_compute; reflexivity.
Qed.

End LabelFacts.

(** X17. [t] never yields an empty label: for every non-empty key, whatever
    the language and the built-ins of the host, it returns a truthy value;
    and for names that [Object.prototype] does not define, that value is a
    non-empty string. *)
Theorem t_never_blank (host_get : I18n.value → string →
    completion I18n.value) (key : string) (lang : option string) :
  key ≠ EmptyString →
  (∃ v, I18n.t host_get key lang = Normal v ∧ I18n.truthy v = true)
  ∧ (key ∉ Object_prototype →
     (∀ l, lang = Some l → l ∉ Object_prototype) →
     ∃ s, I18n.t host_get key lang = Normal (I18n.Str s) ∧ s ≠ EmptyString).
Proof.
  intros Hk.
  assert (Htruthy : ∃ v, I18n.t host_get key lang = Normal v
                         ∧ I18n.truthy v = true).
  { rewrite t_unfold.
    destruct (I18n.Get host_get I18n.translations _) as [table|e];
      [rewrite bind_Normal
      |rewrite bind_Throw; by apply english_or_key_truthy].
    destruct (I18n.Get host_get table key) as [v|e];
      [rewrite bind_Normal
      |rewrite bind_Throw; by apply english_or_key_truthy].
    destruct (I18n.truthy v) eqn:Hv.
    - exists v. by split.
    - destruct (english_or_key_truthy host_get key Hk) as (w & Hw & Hwt).
      exists w. cbn [try_catch]. rewrite Hw. by split. }
  split; [exact Htruthy|].
  intros Hkey Hlang. destruct Htruthy as (v & Hv & Hvt).
  rewrite (t_own host_get key lang Hkey Hlang) in Hv |- *.
  injection Hv as <-. eexists. split; [reflexivity|].
  intros Hs. rewrite Hs in Hvt. discriminate.
Qed.

Lemma t_never_blank_witness :
  ∃ v, I18n.t I18n.bare_host "logout" (Some "te") = Normal v
       ∧ I18n.truthy v = true.
Proof.
  destruct (t_never_blank I18n.bare_host "logout" (Some "te")) as [H _].
  - discriminate.
  - exact H.
Defined.

(** X18. The three tables translate the same keys: for every offered
    language (en, te, hi) and every key that has an English translation,
    [t] answers from the table of that language, never from the English
    fallback. *)
Theorem t_offered_language (host_get : I18n.value → string →
    completion I18n.value) (l key : string) (table : gmap string string) :
  I18n.tables !! l = Some table →
  is_Some (I18n.translations_en !! key) →
  ∃ s, table !! key = Some s
       ∧ I18n.t host_get key (Some l) = Normal (I18n.Str s).
Proof.
  intros Hl Hen.
  destruct (tables_cover_english l table key Hl Hen) as [s Hs].
  exists s. split; [exact Hs|].
  rewrite t_unfold.
  destruct (String.eqb_spec l "") as [->|Hne]; [discriminate|].
  rewrite Get_translations, Hl, bind_Normal, Get_table, Hs, bind_Normal.
  by rewrite (translations_truthy _ _ _ _ Hl Hs).
Qed.

Lemma t_offered_language_witness :
  ∃ s, I18n.translations_hi !! "cancel" = Some s
       ∧ I18n.t I18n.bare_host "cancel" (Some "hi") = Normal (I18n.Str s).
Proof.
  apply (t_offered_language I18n.bare_host "hi" "cancel").
  - reflexivity.
  - eexists. reflexivity.
Defined.
